(** * financial-nlp: the SEC filing parser of [src/parser.py]

    A shallow embedding of the extraction pipeline (metric extraction, ratio
    calculation, sentiment scoring, entity extraction, section splitting,
    risk-sentence selection and their orchestration) together with the
    models of the Python primitives it relies on: [str] methods, binary64
    floats, exceptions, and the backtracking matcher of the [re] module.

    Modelling conventions.
    - A Python [str] is a [list ascii]; a character is one of the 256 code
      points U+0000..U+00FF (Latin-1).  [str.lower], [str.isspace] and the
      character classes of [re] are the restrictions of Python's Unicode
      tables to that range.
    - A Python [float] is a [spec_float] of the standard library, taken at
      binary64 (53 bits of precision, exponent bound 1024).
    - A [dict] with string keys is a [gmap]; [list(set(...))], whose order
      Python leaves unspecified, is a [gset].
    - A function that can raise is a value of the exception monad [exc].
    - [sys.stdout] is a [stream], known by the code points its encoding can
      represent; [print] raises when it meets one it cannot. *)

From Stdlib Require Import ZArith List Ascii String Bool Lia.
From Stdlib Require Import SpecFloat.
From stdpp Require Import base gmap strings list fin_maps.

Import ListNotations.
Open Scope Z_scope.
Open Scope list_scope.

(** ** Python strings *)

Module Py.

Abbreviation str := (list ascii).

(** A string literal of the source. *)
Definition s (x : string) : str := list_ascii_of_string x.

Definition code (c : ascii) : N := N_of_ascii c.

Definition in_range (lo hi : N) (c : ascii) : bool :=
  (N.leb lo (code c) && N.leb (code c) hi)%bool.

(** [str.isspace] on one character: TAB..CR, FS..US, space, NEL, NBSP. *)
Definition isspace (c : ascii) : bool :=
  (in_range 9 13 c || in_range 28 32 c || N.eqb (code c) 133
   || N.eqb (code c) 160)%bool.

(** Decimal digits (category Nd): only '0'..'9' below U+0100. *)
Definition isdecimal (c : ascii) : bool := in_range 48 57 c.

Definition is_ascii_upper (c : ascii) : bool := in_range 65 90 c.
Definition is_ascii_lower (c : ascii) : bool := in_range 97 122 c.

(** Upper-case letters with a lower-case partner inside Latin-1:
    'A'..'Z' and U+00C0..U+00DE except the multiplication sign U+00D7. *)
Definition has_lower (c : ascii) : bool :=
  (is_ascii_upper c
   || (in_range 192 222 c && negb (N.eqb (code c) 215)))%bool.

Definition lower_char (c : ascii) : ascii :=
  if has_lower c then ascii_of_N (code c + 32) else c.

(** Simple upper-case mapping, kept when it stays inside Latin-1
    (sharp s, micro sign and y-diaeresis have no partner there). *)
Definition upper_char (c : ascii) : ascii :=
  if (is_ascii_lower c
      || (in_range 224 254 c && negb (N.eqb (code c) 247)))%bool
  then ascii_of_N (code c - 32) else c.

(** Alphanumeric in the sense of [re]'s [\w] (without the underscore):
    letters, digits, and the numeric characters of Latin-1
    (feminine/masculine ordinals, micro sign, superscripts, fractions). *)
Definition isalnum (c : ascii) : bool :=
  (isdecimal c || is_ascii_upper c || is_ascii_lower c
   || N.eqb (code c) 170 || N.eqb (code c) 178 || N.eqb (code c) 179
   || N.eqb (code c) 181 || N.eqb (code c) 185 || N.eqb (code c) 186
   || in_range 188 190 c
   || (in_range 192 255 c && negb (N.eqb (code c) 215)
       && negb (N.eqb (code c) 247)))%bool.

Definition isword (c : ascii) : bool :=
  (isalnum c || N.eqb (code c) 95)%bool.

(** [str.lower()] *)
Definition lower (t : str) : str := map lower_char t.

(** [str.strip()] *)
Fixpoint lstrip (t : str) : str :=
  match t with
  | c :: t' => if isspace c then lstrip t' else t
  | [] => []
  end.

Definition rstrip (t : str) : str := rev (lstrip (rev t)).

Definition strip (t : str) : str := rstrip (lstrip t).

(** [t[a:b]] for non-negative [a] and [b]. *)
Definition slice (a b : nat) (t : str) : str :=
  firstn (b - a) (skipn a t).

Definition ascii_eqb (a b : ascii) : bool := Ascii.eqb a b.

(** [t.startswith(w)] *)
Fixpoint startswith (w t : str) : bool :=
  match w, t with
  | [], _ => true
  | _ :: _, [] => false
  | a :: w', b :: t' => (ascii_eqb a b && startswith w' t')%bool
  end.

(** [w in t] *)
Fixpoint contains (w t : str) : bool :=
  match t with
  | [] => startswith w []
  | _ :: t' => (startswith w t || contains w t')%bool
  end.

(** [t.count(w)]: the number of non-overlapping occurrences of [w],
    scanning from the left.  [skip] is the number of characters still
    covered by the occurrence counted last.  For the empty [w] Python
    returns [len(t) + 1]. *)
Fixpoint count_from (w : str) (skip : nat) (t : str) : nat :=
  match t with
  | [] => match w with [] => 1%nat | _ => 0%nat end
  | _ :: t' =>
      match skip with
      | S k => count_from w k t'
      | O => if startswith w t
             then S (count_from w (Nat.pred (length w)) t')
             else count_from w 0 t'
      end
  end.

Definition count (t w : str) : nat := count_from w 0 t.

(** [t.replace(',', '')] and the like: removing one character. *)
Definition remove_char (c : ascii) (t : str) : str :=
  List.filter (fun x => negb (ascii_eqb x c)) t.

End Py.

(** ** Python floats: IEEE 754 binary64 *)

Module F.

Definition prec : Z := 53.
Definition emax : Z := 1024.

Abbreviation float := spec_float.

Definition mul : float -> float -> float := SFmul prec emax.
Definition div : float -> float -> float := SFdiv prec emax.
Definition add : float -> float -> float := SFadd prec emax.
Definition sub : float -> float -> float := SFsub prec emax.
Definition ltb : float -> float -> bool := SFltb.
Definition eqb : float -> float -> bool := SFeqb.

(** An integer as an exact, not yet rounded, operand. *)
Definition exact (n : Z) : float :=
  match n with
  | Z0 => S754_zero false
  | Zpos p => S754_finite false p 0
  | Zneg p => S754_finite true p 0
  end.

(** [float(n)] for an integer [n], rounded to nearest even. *)
Definition of_int (n : Z) : float := binary_normalize prec emax n 0 false.

(** The correctly rounded quotient of two integers, [d] non-zero. *)
Definition of_ratio (n d : Z) : float := div (exact n) (exact d).

Definition is_nan (x : float) : bool :=
  match x with S754_nan => true | _ => false end.

Definition is_inf (x : float) : bool :=
  match x with S754_infinity _ => true | _ => false end.

(** [math.isfinite] *)
Definition is_finite (x : float) : bool :=
  match x with
  | S754_zero _ | S754_finite _ _ _ => true
  | _ => false
  end.

Definition is_zero (x : float) : bool :=
  match x with S754_zero _ => true | _ => false end.

Definition zero : float := S754_zero false.
Definition one : float := Eval vm_compute in of_int 1.
Definition two : float := Eval vm_compute in of_int 2.
Definition hundred : float := Eval vm_compute in of_int 100.
Definition thousand : float := Eval vm_compute in of_int 1000.
(** The literals [0.5], [0.6] and [0.4] of the source. *)
Definition half : float := Eval vm_compute in of_ratio 5 10.
Definition c0_6 : float := Eval vm_compute in of_ratio 6 10.
Definition c0_4 : float := Eval vm_compute in of_ratio 4 10.

(** Decimal numerals. *)
Definition digit_val (c : ascii) : Z := Z.of_N (Py.code c) - 48.

Definition digits_val (t : Py.str) : Z :=
  fold_left (fun acc c => 10 * acc + digit_val c) t 0.

Fixpoint span_digits (t : Py.str) : Py.str * Py.str :=
  match t with
  | c :: t' =>
      if Py.isdecimal c
      then let '(d, r) := span_digits t' in (c :: d, r)
      else ([], t)
  | [] => ([], [])
  end.

(** [float(t)] for a string [t] of digits and dots, the only strings the
    program passes to it: [Some] of the correctly rounded value when [t] is
    a decimal numeral (digits with at most one dot and at least one digit),
    [None] when Python raises [ValueError]. *)
Definition of_str (t : Py.str) : option float :=
  let '(ip, r) := span_digits t in
  match r with
  | [] =>
      match ip with
      | [] => None
      | _ => Some (of_ratio (digits_val ip) 1)
      end
  | c :: fp =>
      if (Py.ascii_eqb c "."%char && forallb Py.isdecimal fp
          && negb (Nat.eqb (length ip + length fp) 0))%bool
      then Some (of_ratio (digits_val (ip ++ fp))
                          (10 ^ Z.of_nat (length fp)))
      else None
  end.

End F.


(** ** The [re] module: a backtracking matcher

    The patterns of the program are written in the abstract syntax below and
    run by [exec], which explores alternatives in the order of Python's
    matcher: the left branch of [|] first, one more iteration first for a
    greedy repetition, one fewer first for a lazy one. *)

Module Re.

(** Members of a bracket expression [[...]]. *)
Inductive item : Type :=
  | ILit (c : ascii)
  | IRange (lo hi : ascii)
  | IDigit
  | ISpace.

Inductive regex : Type :=
  | Eps
  | Lit (c : ascii)
  | Dot
  | Digit
  | Space
  | Set_ (items : list item)
  | WordB
  | Cat (r1 r2 : regex)
  | Alt (r1 r2 : regex)
  | Rep (greedy : bool) (lo : N) (hi : option N) (r : regex)
  | Group (r : regex).

(** [re.IGNORECASE] and [re.DOTALL]. *)
Record flags : Type := { ignorecase : bool; dotall : bool }.

Definition lit_matches (f : flags) (c x : ascii) : bool :=
  if ignorecase f
  then Py.ascii_eqb (Py.lower_char x) (Py.lower_char c)
  else Py.ascii_eqb x c.

(** A range under [IGNORECASE]: the character is lower-cased, then it or its
    upper-case partner must lie in the range. *)
Definition range_matches (f : flags) (lo hi x : ascii) : bool :=
  if ignorecase f
  then (Py.in_range (Py.code lo) (Py.code hi) (Py.lower_char x)
        || Py.in_range (Py.code lo) (Py.code hi)
             (Py.upper_char (Py.lower_char x)))%bool
  else Py.in_range (Py.code lo) (Py.code hi) x.

Definition item_matches (f : flags) (i : item) (x : ascii) : bool :=
  match i with
  | ILit c => lit_matches f c x
  | IRange lo hi => range_matches f lo hi x
  | IDigit => Py.isdecimal x
  | ISpace => Py.isspace x
  end.

Definition dot_matches (f : flags) (x : ascii) : bool :=
  (dotall f || negb (Py.ascii_eqb x "010"%char))%bool.

(** The state of a match attempt: the character before the cursor (for
    [\b]), the cursor, the text still ahead, and the span of group 1. *)
Record state : Type := {
  prev : option ascii;
  pos : nat;
  rest : Py.str;
  cap : option (nat * nat)
}.

Definition step (test : ascii -> bool) (st : state)
    (k : state -> option state) : option state :=
  match rest st with
  | c :: t =>
      if test c
      then k {| prev := Some c; pos := S (pos st); rest := t; cap := cap st |}
      else None
  | [] => None
  end.

Definition word_at (o : option ascii) : bool :=
  match o with Some c => Py.isword c | None => false end.

Definition at_boundary (st : state) : bool :=
  xorb (word_at (prev st)) (word_at (head (rest st))).

Definition below (hi : option N) (cnt : N) : bool :=
  match hi with Some h => N.ltb cnt h | None => true end.

(** The loop of a repetition [r{lo,hi}] whose body is matched by [body],
    after [cnt] iterations: a greedy repetition tries one more iteration
    before stopping, a lazy one stops first.  Every iteration must consume a
    character, so no more than [length (rest st)] iterations are possible:
    [fuel] starts at that length and running out of it is a genuine failure
    to iterate. *)
Fixpoint rep_loop (body : state -> (state -> option state) -> option state)
    (greedy : bool) (lo : N) (hi : option N) (k : state -> option state)
    (fuel : nat) (cnt : N) (st0 : state) {struct fuel} : option state :=
  let stop (_ : unit) := if N.leb lo cnt then k st0 else None in
  let more (_ : unit) :=
    match fuel with
    | O => None
    | S fuel' =>
        if below hi cnt
        then body st0 (fun st1 =>
               if Nat.ltb (pos st0) (pos st1)
               then rep_loop body greedy lo hi k fuel' (N.succ cnt) st1
               else None)
        else None
    end in
  if greedy
  then match more tt with Some res => Some res | None => stop tt end
  else match stop tt with Some res => Some res | None => more tt end.

(** [exec f r st k] matches [r] at [st] and hands every way of doing so, in
    priority order, to the continuation [k] until one succeeds. *)
Fixpoint exec (f : flags) (r : regex) (st : state)
    (k : state -> option state) {struct r} : option state :=
  match r with
  | Eps => k st
  | Lit c => step (lit_matches f c) st k
  | Dot => step (dot_matches f) st k
  | Digit => step Py.isdecimal st k
  | Space => step Py.isspace st k
  | Set_ items => step (fun x => existsb (fun i => item_matches f i x) items) st k
  | WordB => if at_boundary st then k st else None
  | Cat r1 r2 => exec f r1 st (fun st1 => exec f r2 st1 k)
  | Alt r1 r2 =>
      match exec f r1 st k with
      | Some res => Some res
      | None => exec f r2 st k
      end
  | Group r1 =>
      exec f r1 st (fun st1 =>
        k {| prev := prev st1; pos := pos st1; rest := rest st1;
             cap := Some (pos st, pos st1) |})
  | Rep greedy lo hi r1 =>
      rep_loop (exec f r1) greedy lo hi k (length (rest st)) 0%N st
  end.

(** A match object: [start()], [end()] and the span of group 1. *)
Record rmatch : Type := {
  m_start : nat;
  m_end : nat;
  m_span1 : option (nat * nat)
}.

Definition match_here (f : flags) (r : regex) (p : option ascii) (i : nat)
    (t : Py.str) : option state :=
  exec f r {| prev := p; pos := i; rest := t; cap := None |} Some.

(** [pattern.search]: the first position, from the left, with a match. *)
Fixpoint search_from (f : flags) (r : regex) (p : option ascii) (i : nat)
    (t : Py.str) : option rmatch :=
  match match_here f r p i t with
  | Some st => Some {| m_start := i; m_end := pos st; m_span1 := cap st |}
  | None =>
      match t with
      | [] => None
      | c :: t' => search_from f r (Some c) (S i) t'
      end
  end.

Definition search (f : flags) (r : regex) (t : Py.str) : option rmatch :=
  search_from f r None 0 t.

(** [match.group(1)] *)
Definition group1 (t : Py.str) (m : rmatch) : Py.str :=
  match m_span1 m with
  | Some (a, b) => Py.slice a b t
  | None => []
  end.

(** [pattern.findall] for a pattern without capturing group: the matched
    substrings, left to right, without overlap.  [skip] counts the
    characters still inside the match found last.  None of the program's
    patterns matches the empty string; an empty match is passed over. *)
Fixpoint findall_from (f : flags) (r : regex) (p : option ascii) (i : nat)
    (skip : nat) (t : Py.str) : list Py.str :=
  match t with
  | [] => []
  | c :: t' =>
      match skip with
      | S n => findall_from f r (Some c) (S i) n t'
      | O =>
          match match_here f r p i t with
          | Some st =>
              if Nat.ltb i (pos st)
              then firstn (pos st - i) t
                   :: findall_from f r (Some c) (S i) (pos st - i - 1) t'
              else findall_from f r (Some c) (S i) 0 t'
          | None => findall_from f r (Some c) (S i) 0 t'
          end
      end
  end.

Definition findall (f : flags) (r : regex) (t : Py.str) : list Py.str :=
  findall_from f r None 0 0 t.

(** [re.split] for a pattern without capturing group: the pieces between
    successive matches.  [cur] holds the piece being read, last character
    first.  As for [findall], an empty match is passed over. *)
Fixpoint split_from (f : flags) (r : regex) (p : option ascii) (i : nat)
    (skip : nat) (cur : Py.str) (t : Py.str) : list Py.str :=
  match t with
  | [] => [rev cur]
  | c :: t' =>
      match skip with
      | S n => split_from f r (Some c) (S i) n cur t'
      | O =>
          match match_here f r p i t with
          | Some st =>
              if Nat.ltb i (pos st)
              then rev cur
                   :: split_from f r (Some c) (S i) (pos st - i - 1) [] t'
              else split_from f r (Some c) (S i) 0 (c :: cur) t'
          | None => split_from f r (Some c) (S i) 0 (c :: cur) t'
          end
      end
  end.

Definition split (f : flags) (r : regex) (t : Py.str) : list Py.str :=
  split_from f r None 0 0 [] t.

(** Pattern syntax. *)
Fixpoint lit (t : Py.str) : regex :=
  match t with
  | [] => Eps
  | [c] => Lit c
  | c :: t' => Cat (Lit c) (lit t')
  end.

Definition word (x : string) : regex := lit (Py.s x).
Definition plus (r : regex) : regex := Rep true 1 None r.
Definition star (r : regex) : regex := Rep true 0 None r.
Definition lazy_star (r : regex) : regex := Rep false 0 None r.
Definition opt (r : regex) : regex := Rep true 0 (Some 1%N) r.
Definition upto (n : N) (r : regex) : regex := Rep true 0 (Some n) r.
Definition lazy_between (a b : N) (r : regex) : regex :=
  Rep false a (Some b) r.
Definition between (a b : N) (r : regex) : regex := Rep true a (Some b) r.

End Re.

Declare Scope re_scope.
Delimit Scope re_scope with re.
Bind Scope re_scope with Re.regex.
Infix "++" := Re.Cat (right associativity, at level 60) : re_scope.
Infix "<|>" := Re.Alt (right associativity, at level 70) : re_scope.

(** ** Exceptions *)

Module Exc.

Inductive exn : Type :=
  | ZeroDivisionError
  | OverflowError
  | UnicodeEncodeError
  | KeyError (k : string).

Inductive exc (A : Type) : Type :=
  | Ok (a : A)
  | Raise (e : exn).
Arguments Ok {A} a.
Arguments Raise {A} e.

Definition bind {A B : Type} (x : exc A) (g : A -> exc B) : exc B :=
  match x with
  | Ok a => g a
  | Raise e => Raise e
  end.

Fixpoint foldM {A B : Type} (g : A -> B -> exc A) (l : list B) (a : A)
    : exc A :=
  match l with
  | [] => Ok a
  | b :: l' => bind (g a b) (foldM g l')
  end.

(** [d[k]] *)
Definition getitem {V : Type} (d : gmap string V) (k : string) : exc V :=
  match d !! k with
  | Some v => Ok v
  | None => Raise (KeyError k)
  end.

(** [k in d] *)
Definition has {V : Type} (d : gmap string V) (k : string) : bool :=
  match d !! k with Some _ => true | None => false end.

(** [x / y] on floats. *)
Definition float_div (x y : F.float) : exc F.float :=
  if F.is_zero y then Raise ZeroDivisionError else Ok (F.div x y).

(** [a / b] on integers: the correctly rounded quotient. *)
Definition int_truediv (a b : Z) : exc F.float :=
  if Z.eqb b 0 then Raise ZeroDivisionError
  else
    let q := F.of_ratio a b in
    if F.is_inf q then Raise OverflowError else Ok q.

(** A dict comprehension [{k: g(v) for k, v in d.items()}]. *)
Definition dict_comp {A B : Type} (g : A -> exc B) (d : gmap string A)
    : exc (gmap string B) :=
  map_fold (fun k v acc =>
              bind acc (fun m => bind (g v) (fun b => Ok (<[k := b]> m))))
           (Ok ∅) d.

End Exc.

Notation "x <- c1 ;; c2" := (Exc.bind c1 (fun x => c2))
  (at level 100, c1 at next level, right associativity).

Import Exc.

(** ** Standard output *)

Module IO.

(** A line to print, as Unicode code points: the progress lines of the
    program hold two characters beyond U+00FF. *)
Abbreviation line := (list N).

(** A text stream, known by the code points its encoding represents.  The
    stream is taken to be open and writable. *)
Record stream : Type := { encodable : N -> bool }.

(** A UTF-8 stream: every code point but the surrogates. *)
Definition utf8 : stream :=
  {| encodable := fun c =>
       ((N.ltb c 55296 || N.ltb 57343 c) && N.leb c 1114111)%bool |}.

(** An ASCII stream. *)
Definition ascii_stream : stream := {| encodable := fun c => N.ltb c 128 |}.

(** The code points of a string. *)
Definition codes (t : Py.str) : line := map Py.code t.

(** [print(l)]: the line and the newline after it are encoded and written;
    a code point the stream cannot encode raises [UnicodeEncodeError].  What
    is written is not kept. *)
Definition print (out : stream) (l : line) : exc unit :=
  if forallb (encodable out) (l ++ [10%N])
  then Ok tt
  else Raise UnicodeEncodeError.

End IO.

(** ** class FinancialMetricExtractor *)

Module FinancialMetricExtractor.

Import Re.

Definition IGNORECASE : flags := {| ignorecase := true; dotall := false |}.

(** [.*?[\$\s]+([\d,\.]+)], the part every metric pattern shares. *)
Definition amount : regex :=
  (lazy_star Dot ++ plus (Set_ [ILit "$"; ISpace])
   ++ Group (plus (Set_ [IDigit; ILit ","; ILit "."])))%re.

(** [\s*(?:million|billion)?] *)
Definition scale : regex :=
  (star Space ++ opt (word "million" <|> word "billion"))%re.

Definition _load_patterns : list (string * regex) :=
  [ ("revenue"%string,
      ((word "revenue" <|> word "sales"
        <|> (word "net" ++ plus Space ++ word "sales"))
       ++ amount ++ scale)%re);
    ("net_income"%string,
      (word "net" ++ plus Space ++ word "income" ++ amount ++ scale)%re);
    ("earnings_per_share"%string,
      (word "earnings" ++ plus Space ++ word "per" ++ plus Space
       ++ word "share" ++ amount)%re);
    ("gross_profit"%string,
      (word "gross" ++ plus Space ++ word "profit" ++ amount ++ scale)%re);
    ("operating_income"%string,
      (word "operating" ++ plus Space ++ word "income" ++ amount
       ++ scale)%re);
    ("total_assets"%string,
      (word "total" ++ plus Space ++ word "assets" ++ amount ++ scale)%re);
    ("total_liabilities"%string,
      (word "total" ++ plus Space ++ word "liabilities" ++ amount
       ++ scale)%re);
    ("cash_and_equivalents"%string,
      (word "cash" ++ plus Space ++ opt (word "and" ++ plus Space)
       ++ opt (word "cash" ++ plus Space) ++ word "equivalents"
       ++ amount ++ scale)%re);
    ("stockholders_equity"%string,
      ((word "stockholders" <|> word "shareholders") ++ plus Space
       ++ word "equity" ++ amount ++ scale)%re) ].

(** [text[max(0, match.start()-50):match.end()+20]] *)
Definition context (text : Py.str) (m : rmatch) : Py.str :=
  Py.slice (m_start m - 50) (m_end m + 20) text.

(** The value stored for a match whose numeral parsed as [value]. *)
Definition scaled (text : Py.str) (m : rmatch) (value : F.float) : F.float :=
  if Py.contains (Py.s "billion") (Py.lower (context text m))
  then F.mul value F.thousand
  else value.

(** One turn of the loop of [extract_metrics]. *)
Definition extract_one (text : Py.str) (metrics : gmap string F.float)
    (entry : string * regex) : gmap string F.float :=
  let '(metric_name, pattern) := entry in
  match search IGNORECASE pattern text with
  | Some m =>
      let value_str := Py.remove_char ","%char (group1 text m) in
      match F.of_str value_str with
      | Some value => <[metric_name := scaled text m value]> metrics
      | None => metrics
      end
  | None => metrics
  end.

Definition extract_metrics (text : Py.str) : gmap string F.float :=
  fold_left (extract_one text) _load_patterns ∅.

(** One [if ... in metrics and ... in metrics: if metrics[d] > 0:
    ratios[name] = ...] block of [calculate_ratios]; [pct] tells whether the
    quotient is multiplied by 100. *)
Definition ratio_block (metrics : gmap string F.float)
    (name num den : string) (pct : bool) (ratios : gmap string F.float)
    : exc (gmap string F.float) :=
  if (has metrics num && has metrics den)%bool
  then
    d <- getitem metrics den ;;
    if F.ltb F.zero d
    then
      n <- getitem metrics num ;;
      d' <- getitem metrics den ;;
      q <- float_div n d' ;;
      Ok (<[name := if pct then F.mul q F.hundred else q]> ratios)
    else Ok ratios
  else Ok ratios.

Definition calculate_ratios (metrics : gmap string F.float)
    : exc (gmap string F.float) :=
  let ratios : gmap string F.float := ∅ in
  ratios <- ratio_block metrics "profit_margin" "net_income" "revenue"
              true ratios ;;
  ratios <- ratio_block metrics "return_on_assets" "net_income"
              "total_assets" true ratios ;;
  ratios <- ratio_block metrics "debt_to_equity" "total_liabilities"
              "stockholders_equity" false ratios ;;
  ratios <- ratio_block metrics "cash_ratio" "cash_and_equivalents"
              "total_liabilities" false ratios ;;
  Ok ratios.

End FinancialMetricExtractor.

(** ** class SentimentAnalyzer *)

Module SentimentAnalyzer.

Definition _load_lexicons : list (string * list Py.str) :=
  [ ("positive"%string,
      map Py.s
        [ "growth"; "increase"; "improved"; "strong"; "positive";
          "gain"; "profit"; "success"; "opportunity"; "favorable";
          "expand"; "efficient"; "excellent"; "robust"; "momentum";
          "outperform"; "exceeded"; "innovative"; "competitive" ]%string);
    ("negative"%string,
      map Py.s
        [ "decline"; "decrease"; "loss"; "weak"; "negative";
          "risk"; "challenge"; "concern"; "adverse"; "difficult";
          "uncertainty"; "volatile"; "impairment"; "litigation";
          "default"; "breach"; "deteriorate"; "unsuccessful" ]%string);
    ("uncertainty"%string,
      map Py.s
        [ "may"; "could"; "might"; "uncertain"; "estimate";
          "believe"; "expect"; "anticipate"; "subject to";
          "depends"; "varies"; "fluctuate" ]%string) ].

Record result : Type := {
  counts : gmap string nat;
  scores : gmap string F.float;
  overall_sentiment : F.float;
  sentiment_label : string
}.

Definition _label_sentiment (score : F.float) : string :=
  if F.ltb F.c0_6 score then "Positive"
  else if F.ltb score F.c0_4 then "Negative"
  else "Neutral".

(** [counts[category] += text_lower.count(word)] *)
Definition count_word (text_lower : Py.str) (category : string)
    (counts : gmap string nat) (word : Py.str) : exc (gmap string nat) :=
  c <- getitem counts category ;;
  Ok (<[category := (c + Py.count text_lower word)%nat]> counts).

(** The body of [for category, lexicon in self.lexicons.items()]. *)
Definition count_category (text_lower : Py.str) (counts : gmap string nat)
    (entry : string * list Py.str) : exc (gmap string nat) :=
  let '(category, lexicon) := entry in
  foldM (count_word text_lower category) lexicon counts.

(** [sum(counts.values())] *)
Definition total_of (counts : gmap string nat) : nat :=
  map_fold (fun _ v acc => (acc + v)%nat) 0%nat counts.

Definition analyze_text (text : Py.str) : exc result :=
  let text_lower := Py.lower text in
  let counts : gmap string nat :=
    <["uncertainty"%string := 0%nat]>
      (<["negative"%string := 0%nat]> {["positive"%string := 0%nat]}) in
  counts <- foldM (count_category text_lower) _load_lexicons counts ;;
  let total := total_of counts in
  if Nat.eqb total 0
  then
    let scores : gmap string F.float := (fun _ => F.zero) <$> counts in
    let overall := F.half in
    Ok {| counts := counts; scores := scores; overall_sentiment := overall;
          sentiment_label := _label_sentiment overall |}
  else
    scores <- dict_comp (fun c => int_truediv (Z.of_nat c) (Z.of_nat total))
                counts ;;
    p <- getitem scores "positive" ;;
    n <- getitem scores "negative" ;;
    let overall := F.div (F.add (F.sub p n) F.one) F.two in
    Ok {| counts := counts; scores := scores; overall_sentiment := overall;
          sentiment_label := _label_sentiment overall |}.

End SentimentAnalyzer.

(** ** class EntityExtractor *)

Module EntityExtractor.

Import Re.

Definition IGNORECASE : flags := {| ignorecase := true; dotall := false |}.
Definition NOFLAGS : flags := {| ignorecase := false; dotall := false |}.

Definition upper_case : regex := Set_ [IRange "A" "Z"].
Definition lower_case : regex := Set_ [IRange "a" "z"].

Definition company : regex :=
  (WordB
   ++ (upper_case ++ plus lower_case
       ++ star (plus Space ++ upper_case ++ plus lower_case))
   ++ plus Space
   ++ (word "Inc." <|> word "Corp." <|> word "LLC" <|> word "Ltd."))%re.

Definition date : regex :=
  ((word "January" <|> word "February" <|> word "March" <|> word "April"
    <|> word "May" <|> word "June" <|> word "July" <|> word "August"
    <|> word "September" <|> word "October" <|> word "November"
    <|> word "December")
   ++ plus Space ++ between 1 2 Digit ++ opt (Lit ",") ++ plus Space
   ++ between 4 4 Digit)%re.

Definition money : regex :=
  (Lit "$" ++ plus (Set_ [IDigit; ILit ","])
   ++ opt (Lit "." ++ between 2 2 Digit))%re.

Definition percentage : regex :=
  (plus Digit ++ opt (Lit "." ++ plus Digit) ++ Lit "%")%re.

Definition _load_patterns : list (string * (flags * regex)) :=
  [ ("company"%string, (IGNORECASE, company));
    ("date"%string, (IGNORECASE, date));
    ("money"%string, (NOFLAGS, money));
    ("percentage"%string, (NOFLAGS, percentage)) ].

(** [entities[entity_type] = list(set(pattern.findall(text)))] *)
Definition extract_one (text : Py.str) (entities : gmap string (gset Py.str))
    (entry : string * (flags * regex)) : gmap string (gset Py.str) :=
  let '(entity_type, (f, pattern)) := entry in
  let matches := findall f pattern text in
  <[entity_type := list_to_set matches]> entities.

Definition extract_entities (text : Py.str) : gmap string (gset Py.str) :=
  fold_left (extract_one text) _load_patterns ∅.

End EntityExtractor.

(** ** class SECFilingParser *)

Module SECFilingParser.

Import Re.

(** [re.IGNORECASE | re.DOTALL] *)
Definition IGNORECASE_DOTALL : flags :=
  {| ignorecase := true; dotall := true |}.

(** [.{0,100}?(.{1,10000}?)] *)
Definition body : regex :=
  (lazy_between 0 100 Dot ++ Group (lazy_between 1 10000 Dot))%re.

Definition mda_pattern : regex :=
  (((word "ITEM" ++ plus Space ++ word "7")
    <|> (word "Management" ++ upto 50 Dot ++ word "Discussion"))
   ++ body
   ++ ((word "ITEM" ++ plus Space ++ word "8")
       <|> (word "Financial" ++ plus Space ++ word "Statements")))%re.

Definition risk_pattern : regex :=
  (((word "ITEM" ++ plus Space ++ word "1A")
    <|> (word "Risk" ++ plus Space ++ word "Factors"))
   ++ body
   ++ ((word "ITEM" ++ plus Space ++ word "1B")
       <|> (word "ITEM" ++ plus Space ++ word "2")))%re.

Definition _extract_sections (text : Py.str) : gmap string Py.str :=
  let sections : gmap string Py.str := ∅ in
  let sections :=
    match search IGNORECASE_DOTALL mda_pattern text with
    | Some mda_match => <["mda"%string := group1 text mda_match]> sections
    | None => sections
    end in
  let sections :=
    match search IGNORECASE_DOTALL risk_pattern text with
    | Some risk_match =>
        <["risk_factors"%string := group1 text risk_match]> sections
    | None => sections
    end in
  sections.

Definition risk_keywords : list Py.str :=
  map Py.s ["risk"; "uncertainty"; "adverse"; "challenge"; "concern"]%string.

(** [[.!?]+] *)
Definition sentence_end : regex :=
  plus (Set_ [ILit "."; ILit "!"; ILit "?"]).

Definition NOFLAGS : flags := {| ignorecase := false; dotall := false |}.

(** One turn of the loop of [_extract_risk_factors]. *)
Definition risk_step (risks : list Py.str) (sentence : Py.str)
    : list Py.str :=
  let sentence_lower := Py.lower sentence in
  if existsb (fun keyword => Py.contains keyword sentence_lower) risk_keywords
  then
    if Nat.ltb 50 (length (Py.strip sentence))
    then risks ++ [Py.strip sentence]
    else risks
  else risks.

Definition _extract_risk_factors (text : Py.str) : list Py.str :=
  let sentences := split NOFLAGS sentence_end text in
  let risks := fold_left risk_step sentences [] in
  firstn 10 risks.

Record filing : Type := {
  ticker : option Py.str;
  filing_type : Py.str;
  parsed_date : Py.str;
  metrics : gmap string F.float;
  ratios : gmap string F.float;
  sentiment : SentimentAnalyzer.result;
  entities : gmap string (gset Py.str);
  risks : list Py.str;
  sections : gmap string nat
}.

(** The progress lines of [parse_filing]; U+1F4C4 is the page emoji and
    U+2705 the check mark. *)
Definition line_parsing (filing_type : Py.str) : IO.line :=
  [10%N; 128196%N] ++ IO.codes (Py.s " Parsing ") ++ IO.codes filing_type
  ++ IO.codes (Py.s " filing...").

Definition line_metrics : IO.line :=
  IO.codes (Py.s "  Extracting financial metrics...").
Definition line_sentiment : IO.line :=
  IO.codes (Py.s "  Analyzing sentiment...").
Definition line_entities : IO.line :=
  IO.codes (Py.s "  Extracting entities...").
Definition line_risks : IO.line :=
  IO.codes (Py.s "  Identifying risk factors...").
Definition line_complete : IO.line :=
  IO.codes (Py.s "  ") ++ [9989%N] ++ IO.codes (Py.s " Parsing complete").

(** [parse_filing]; [out] stands for [sys.stdout] and [now] for
    [datetime.now().isoformat()]. *)
Definition parse_filing (out : IO.stream) (now : Py.str) (text : Py.str)
    (ticker : option Py.str) (filing_type : Py.str) : exc filing :=
  _ <- IO.print out (line_parsing filing_type) ;;
  let sections := _extract_sections text in
  _ <- IO.print out line_metrics ;;
  let metrics := FinancialMetricExtractor.extract_metrics text in
  ratios <- FinancialMetricExtractor.calculate_ratios metrics ;;
  _ <- IO.print out line_sentiment ;;
  let mda_text :=
    default (firstn (N.to_nat 5000) text) (sections !! "mda"%string) in
  sentiment <- SentimentAnalyzer.analyze_text mda_text ;;
  _ <- IO.print out line_entities ;;
  let entities := EntityExtractor.extract_entities text in
  _ <- IO.print out line_risks ;;
  let risks := _extract_risk_factors text in
  let result :=
    {| ticker := ticker; filing_type := filing_type; parsed_date := now;
       metrics := metrics; ratios := ratios; sentiment := sentiment;
       entities := entities; risks := risks;
       sections := length <$> sections |} in
  _ <- IO.print out line_complete ;;
  Ok result.

End SECFilingParser.

(** ** Definitions used to state and prove the properties *)

Module Spec.

Import Re.

(** The 256 characters. *)
Definition all_chars : list ascii :=
  map (fun n => ascii_of_nat n) (seq 0 256).

(** The test made by a one-character pattern, [None] for the others. *)
Definition char_test (f : flags) (r : regex) : option (ascii -> bool) :=
  match r with
  | Lit c => Some (lit_matches f c)
  | Dot => Some (dot_matches f)
  | Digit => Some Py.isdecimal
  | Space => Some Py.isspace
  | Set_ items => Some (fun x => existsb (fun i => item_matches f i x) items)
  | _ => None
  end.

(** [blocked f P r]: every match of [r] begins with a character that does
    not satisfy [P], so [r] matches nowhere in a text made of [P]
    characters. *)
Fixpoint blocked (f : flags) (P : ascii -> bool) (r : regex) : bool :=
  match r with
  | Eps | WordB => false
  | Cat WordB r2 => blocked f P r2
  | Cat r1 _ => blocked f P r1
  | Alt r1 r2 => (blocked f P r1 && blocked f P r2)%bool
  | Rep _ lo _ r1 => (N.ltb 0 lo && blocked f P r1)%bool
  | Group r1 => blocked f P r1
  | _ =>
      match char_test f r with
      | Some test => forallb (fun x => implb (P x) (negb (test x))) all_chars
      | None => false
      end
  end.

(** Splitting on maximal runs of characters satisfying [d], written
    directly: [in_run] tells whether the previous character was a
    delimiter, [cur] is the piece being read, last character first. *)
Fixpoint split_runs (d : ascii -> bool) (in_run : bool) (cur : Py.str)
    (t : Py.str) : list Py.str :=
  match t with
  | [] => [rev cur]
  | c :: t' =>
      if d c
      then if in_run then split_runs d true [] t'
           else rev cur :: split_runs d true [] t'
      else split_runs d false (c :: cur) t'
  end.

(** The length of the maximal prefix of [t] made of [d] characters, and the
    matcher state after reading it. *)
Fixpoint run_len (d : ascii -> bool) (t : Py.str) : nat :=
  match t with
  | c :: t' => if d c then S (run_len d t') else 0%nat
  | [] => 0%nat
  end.

Fixpoint skip_run (d : ascii -> bool) (p : option ascii) (i : nat)
    (t : Py.str) (cp : option (nat * nat)) : state :=
  match t with
  | c :: t' =>
      if d c then skip_run d (Some c) (S i) t' cp
      else {| prev := p; pos := i; rest := t; cap := cp |}
  | [] => {| prev := p; pos := i; rest := []; cap := cp |}
  end.

Definition is_sentence_end (c : ascii) : bool :=
  (Py.ascii_eqb c "." || Py.ascii_eqb c "!" || Py.ascii_eqb c "?")%bool.

(** A sentence the risk selector keeps. *)
Definition qualifies (sentence : Py.str) : bool :=
  (existsb (fun keyword => Py.contains keyword (Py.lower sentence))
     SECFilingParser.risk_keywords
   && Nat.ltb 50 (length (Py.strip sentence)))%bool.

(** A state moved [d] characters to the right. *)
Definition shift (d : nat) (st : state) : state :=
  {| prev := prev st; pos := pos st + d; rest := rest st;
     cap := option_map (fun ab : nat * nat => (fst ab + d, snd ab + d)%nat)
              (cap st) |}.

(** The character before position [S j] of [pre], or [p] before its
    start. *)
Definition prev_at (p : option ascii) (pre : Py.str) (j : nat)
    : option ascii :=
  match j with
  | O => p
  | S j' => nth_error pre j'
  end.

(** No match of [r] starts inside the prefix [pre] of [pre ++ t]. *)
Definition no_match_in (f : flags) (r : regex) (pre t : Py.str) : bool :=
  forallb (fun j => match match_here f r (prev_at None pre j) j
                            (skipn j (pre ++ t)) with
                    | Some _ => false
                    | None => true
                    end)
          (seq 0 (length pre)).

(** What [extract_metrics] stores for a pattern, if anything. *)
Definition metric_value (text : Py.str) (pattern : regex) : option F.float :=
  match search FinancialMetricExtractor.IGNORECASE pattern text with
  | Some m =>
      match F.of_str (Py.remove_char ","%char (group1 text m)) with
      | Some value => Some (FinancialMetricExtractor.scaled text m value)
      | None => None
      end
  | None => None
  end.

Definition total_assets_pattern : regex :=
  (word "total" ++ plus Space ++ word "assets"
   ++ FinancialMetricExtractor.amount ++ FinancialMetricExtractor.scale)%re.

Definition assets_phrase : Py.str := Py.s "Total Assets: $5.6 billion".

(** A text that contains [assets_phrase] after an earlier total-assets
    figure. *)
Definition two_assets_text : Py.str :=
  Py.s "Total assets $7 million in the prior fiscal year; Total Assets: $5.6 billion".

(** The lines [parse_filing] prints, and whether a stream can encode all of
    them (with the newline that ends each). *)
Definition progress_lines (filing_type : Py.str) : list IO.line :=
  [ SECFilingParser.line_parsing filing_type;
    SECFilingParser.line_metrics;
    SECFilingParser.line_sentiment;
    SECFilingParser.line_entities;
    SECFilingParser.line_risks;
    SECFilingParser.line_complete ].

Definition can_print (out : IO.stream) (filing_type : Py.str) : bool :=
  forallb (fun l => forallb (IO.encodable out) (l ++ [10%N]))
          (progress_lines filing_type).

(** A word that begins with a character other than white space. *)
Definition starts_nonspace (w : Py.str) : bool :=
  match w with
  | c :: _ => negb (Py.isspace c)
  | [] => false
  end.

(** The entities found in a text without any entity. *)
Definition no_entities : gmap string (gset Py.str) :=
  <["percentage"%string := ∅]>
    (<["money"%string := ∅]>
       (<["date"%string := ∅]> {["company"%string := ∅]})).

(** A numeral too large for binary64: 1 followed by 309 zeros. *)
Definition huge_revenue : Py.str :=
  Py.s "Revenue: $1" ++ repeat "0"%char 309 ++ Py.s " million".

(** What a successful match is, as a relation between the state before and
    the state after: the declarative reading of a pattern.  [iter R n] is
    [n] iterations of [R], each consuming at least one character. *)
Inductive iter (R : state -> state -> Prop) : N -> state -> state -> Prop :=
  | iter_zero (st : state) : iter R 0 st st
  | iter_more (n : N) (st mid st' : state) :
      R st mid -> (pos st < pos mid)%nat -> iter R n mid st' ->
      iter R (N.succ n) st st'.

Definition reads (test : ascii -> bool) (st st' : state) : Prop :=
  exists c t,
    rest st = c :: t /\ test c = true
    /\ st' = {| prev := Some c; pos := S (pos st); rest := t;
                cap := cap st |}.

Fixpoint matches (f : flags) (r : regex) (st st' : state) : Prop :=
  match r with
  | Eps => st' = st
  | Lit c => reads (lit_matches f c) st st'
  | Dot => reads (dot_matches f) st st'
  | Digit => reads Py.isdecimal st st'
  | Space => reads Py.isspace st st'
  | Set_ items =>
      reads (fun x => existsb (fun i => item_matches f i x) items) st st'
  | WordB => at_boundary st = true /\ st' = st
  | Cat r1 r2 => exists mid, matches f r1 st mid /\ matches f r2 mid st'
  | Alt r1 r2 => matches f r1 st st' \/ matches f r2 st st'
  | Group r1 =>
      exists mid,
        matches f r1 st mid
        /\ st' = {| prev := prev mid; pos := pos mid; rest := rest mid;
                    cap := Some (pos st, pos mid) |}
  | Rep _ lo hi r1 =>
      exists n,
        iter (matches f r1) n st st' /\ (lo <= n)%N
        /\ match hi with Some h => (n <= h)%N | None => True end
  end.



(** The state is at position [pos st] of [text]. *)
Definition anchored (text : Py.str) (st : state) : Prop :=
  rest st = skipn (pos st) text /\ (pos st <= length text)%nat.



(** A sample text with twenty qualifying sentences. *)
Definition risk_sentence : Py.str :=
  Py.s "There is a risk that the market moves against this company".

Definition twenty_risks : Py.str :=
  concat (repeat (risk_sentence ++ Py.s ". ") 20).

(** The number of positions of [t] at which [w] occurs. *)
Fixpoint occurrences (w t : Py.str) : nat :=
  match t with
  | [] => 0%nat
  | _ :: t' =>
      ((if Py.startswith w t then 1 else 0) + occurrences w t')%nat
  end.

(** The sum of the counts of the words of a lexicon. *)
Definition lexicon_count (t : Py.str) (lexicon : list Py.str) : nat :=
  fold_left (fun acc w => (acc + Py.count t w)%nat) lexicon 0%nat.

Definition lexicon_of (category : string) : list Py.str :=
  default [] (snd <$> List.find (fun e => String.eqb (fst e) category)
                        SentimentAnalyzer._load_lexicons).

(** The ratios of [calculate_ratios]: name, numerator, denominator, and
    whether the quotient is a percentage. *)
Definition ratio_table : list (string * string * string * bool) :=
  [ ("profit_margin", "net_income", "revenue", true);
    ("return_on_assets", "net_income", "total_assets", true);
    ("debt_to_equity", "total_liabilities", "stockholders_equity", false);
    ("cash_ratio", "cash_and_equivalents", "total_liabilities", false)
  ]%string.

(** The value of a ratio, when it is emitted. *)
Definition ratio_of (metrics : gmap string F.float) (num den : string)
    (pct : bool) : option F.float :=
  match metrics !! num, metrics !! den with
  | Some n, Some d =>
      if F.ltb F.zero d
      then Some (if pct then F.mul (F.div n d) F.hundred else F.div n d)
      else None
  | _, _ => None
  end.

(** The counts dict with the given entries. *)
Definition counts_of (cp cn cu : nat) : gmap string nat :=
  <["uncertainty"%string := cu]>
    (<["negative"%string := cn]> {["positive"%string := cp]}).

(** The count of a category in a text, as [analyze_text] computes it. *)
Definition category_count (category : string) (text : Py.str) : nat :=
  lexicon_count (Py.lower text) (lexicon_of category).

Definition total_count (text : Py.str) : nat :=
  (category_count "positive" text + category_count "negative" text
   + category_count "uncertainty" text)%nat.

(** [count / total] *)
Definition score (count total : nat) : F.float :=
  F.of_ratio (Z.of_nat count) (Z.of_nat total).

(** No word of any lexicon occurs in the lower-cased text. *)
Definition no_lexicon_word (text : Py.str) : bool :=
  forallb (fun entry : string * list Py.str =>
             forallb (fun w => negb (Py.contains w (Py.lower text)))
                     (snd entry))
          SentimentAnalyzer._load_lexicons.

(** A text with 8 positive, 9 negative and 18 uncertainty matches. *)
Definition skewed_text : Py.str :=
  concat (repeat (Py.s "gain ") 8) ++ concat (repeat (Py.s "risk ") 9)
  ++ concat (repeat (Py.s "may ") 18).

(** What [analyze_text] returns, in closed form. *)
Definition sentiment_of (text : Py.str) : SentimentAnalyzer.result :=
  let cp := category_count "positive" text in
  let cn := category_count "negative" text in
  let cu := category_count "uncertainty" text in
  let total := total_count text in
  let overall :=
    if Nat.eqb total 0 then F.half
    else F.div (F.add (F.sub (score cp total) (score cn total)) F.one)
           F.two in
  {| SentimentAnalyzer.counts := counts_of cp cn cu;
     SentimentAnalyzer.scores :=
       if Nat.eqb total 0
       then (fun _ => F.zero) <$> counts_of cp cn cu
       else (fun c => score c total) <$> counts_of cp cn cu;
     SentimentAnalyzer.overall_sentiment := overall;
     SentimentAnalyzer.sentiment_label :=
       SentimentAnalyzer._label_sentiment overall |}.

(** [0 <= x <= 2^k] for a float [x], on its exact value [m * 2^e]. *)
Definition le_pow2 (k : Z) (x : F.float) : Prop :=
  match x with
  | S754_zero _ => True
  | S754_finite false m e => e <= k /\ Z.pos m <= 2 ^ (k - e)
  | _ => False
  end.

(** [-2^k <= x <= 2^k] *)
Definition mag_le_pow2 (k : Z) (x : F.float) : Prop :=
  match x with
  | S754_zero _ => True
  | S754_finite _ m e => e <= k /\ Z.pos m <= 2 ^ (k - e)
  | _ => False
  end.

(** [-1 <= x <= 1] *)
Definition abs_le_one (x : F.float) : Prop := mag_le_pow2 0 x.

(** [0 <= x <= 1] *)
Definition in_unit (x : F.float) : Prop := le_pow2 0 x.

(** A non-negative float or [+inf]: neither NaN nor negative. *)
Definition nonneg_or_inf (x : F.float) : Prop :=
  match x with
  | S754_zero false | S754_infinity false | S754_finite false _ _ => True
  | _ => False
  end.

End Spec.

(** * Properties *)

(** ** Characters and strings *)

Section Chars.

Lemma all_chars_complete (c : ascii) : In c Spec.all_chars.
Proof.
  assert (H : existsb (Py.ascii_eqb c) Spec.all_chars = true).
  { destruct c as [[] [] [] [] [] [] [] []]; vm_compute; reflexivity. }
  apply existsb_exists in H. destruct H as [x [Hin Heq]].
  apply Ascii.eqb_eq in Heq. now subst.
Qed.

(** A property of characters checked on all 256 of them. *)
Lemma forall_chars (Q : ascii -> bool) :
  forallb Q Spec.all_chars = true -> forall c, Q c = true.
Proof.
  intros H c. rewrite forallb_forall in H. apply H, all_chars_complete.
Qed.

Lemma lower_isspace (c : ascii) : Py.isspace (Py.lower_char c) = Py.isspace c.
Proof.
  apply Bool.eqb_prop.
  apply (forall_chars (fun c => Bool.eqb (Py.isspace (Py.lower_char c))
                                         (Py.isspace c))).
  vm_compute. reflexivity.
Qed.

Lemma lower_length (t : Py.str) : length (Py.lower t) = length t.
Proof. apply length_map. Qed.

Lemma lower_app (a b : Py.str) : Py.lower (a ++ b) = Py.lower a ++ Py.lower b.
Proof. apply map_app. Qed.

Lemma startswith_app (w t : Py.str) : Py.startswith w (w ++ t) = true.
Proof.
  induction w as [|a w IH]; simpl; [reflexivity|].
  unfold Py.ascii_eqb. now rewrite Ascii.eqb_refl.
Qed.

Lemma startswith_iff (w t : Py.str) :
  Py.startswith w t = true <-> exists u, t = w ++ u.
Proof.
  split.
  - revert t. induction w as [|a w IH]; intros t H.
    + now exists t.
    + destruct t as [|b t]; simpl in H; [discriminate|].
      apply andb_prop in H. destruct H as [H1 H2].
      apply Ascii.eqb_eq in H1. subst b.
      destruct (IH _ H2) as [u ->]. now exists u.
  - intros [u ->]. apply startswith_app.
Qed.

Lemma contains_iff (w t : Py.str) :
  Py.contains w t = true <-> exists a b, t = a ++ w ++ b.
Proof.
  induction t as [|c t IH]; simpl.
  - rewrite startswith_iff. split.
    + intros [u Hu]. exists [], u. exact Hu.
    + intros [a [b H]]. destruct a; simpl in H.
      * now exists b.
      * discriminate.
  - rewrite orb_true_iff, IH, startswith_iff. split.
    + intros [[u Hu]|[a [b H]]].
      * exists [], u. exact Hu.
      * exists (c :: a), b. now rewrite H.
    + intros [a [b H]]. destruct a as [|x a]; simpl in H.
      * left. now exists b.
      * right. injection H as _ H. now exists a, b.
Qed.

(** A word beginning with a character outside [P] occurs nowhere in a text
    of [P] characters. *)
Lemma startswith_blocked (P : ascii -> bool) (c : ascii) (w t : Py.str) :
  P c = false -> Forall (fun x => P x = true) t ->
  Py.startswith (c :: w) t = false.
Proof.
  intros Hc Ht. destruct t as [|b t]; [reflexivity|]. simpl.
  inversion Ht as [|? ? Hb _]; subst.
  destruct (Py.ascii_eqb c b) eqn:E; [|reflexivity].
  apply Ascii.eqb_eq in E. congruence.
Qed.

Lemma contains_blocked (P : ascii -> bool) (c : ascii) (w t : Py.str) :
  P c = false -> Forall (fun x => P x = true) t ->
  Py.contains (c :: w) t = false.
Proof.
  intros Hc Ht. induction Ht as [|b t Hb Ht IH]; [reflexivity|].
  change (Py.contains (c :: w) (b :: t))
    with (Py.startswith (c :: w) (b :: t) || Py.contains (c :: w) t)%bool.
  rewrite IH, (startswith_blocked P) by (auto using Forall_cons).
  reflexivity.
Qed.

Lemma count_from_blocked (P : ascii -> bool) (c : ascii) (w t : Py.str)
    (skip : nat) :
  P c = false -> Forall (fun x => P x = true) t ->
  Py.count_from (c :: w) skip t = 0%nat.
Proof.
  intros Hc Ht. revert skip.
  induction Ht as [|b t Hb Ht IH]; intros skip; [reflexivity|].
  change (Py.count_from (c :: w) skip (b :: t))
    with (match skip with
          | S k => Py.count_from (c :: w) k t
          | O => if Py.startswith (c :: w) (b :: t)
                 then S (Py.count_from (c :: w)
                           (Nat.pred (length (c :: w))) t)
                 else Py.count_from (c :: w) 0 t
          end).
  destruct skip; [|apply IH].
  rewrite (startswith_blocked P) by (auto using Forall_cons). apply IH.
Qed.

Lemma lower_forall_space (t : Py.str) :
  Forall (fun x => Py.isspace x = true) t ->
  Forall (fun x => Py.isspace x = true) (Py.lower t).
Proof.
  intros H. induction H as [|b t Hb _ IH]; simpl; constructor; auto.
  now rewrite lower_isspace.
Qed.

End Chars.

(** ** The matcher *)

Section Matcher.

Import Re.

Implicit Types (f : flags) (r : regex) (st : state) (t : Py.str).

Lemma step_blocked (test P : ascii -> bool) st k :
  (forall x, P x = true -> test x = false) ->
  Forall (fun x => P x = true) (rest st) ->
  step test st k = None.
Proof.
  intros Ht Hst. unfold step. destruct (rest st) as [|c t]; [reflexivity|].
  inversion Hst; subst. now rewrite Ht.
Qed.

Lemma char_test_blocked f (P : ascii -> bool) (test : ascii -> bool) :
  forallb (fun x => implb (P x) (negb (test x))) Spec.all_chars = true ->
  forall x, P x = true -> test x = false.
Proof.
  intros H x Hx.
  pose proof (forall_chars _ H x) as Hi. simpl in Hi.
  rewrite Hx in Hi. simpl in Hi. now apply negb_true_iff.
Qed.

Lemma rep_loop_first_blocked body greedy lo hi k fuel st :
  (0 < lo)%N ->
  (forall k', body st k' = None) ->
  rep_loop body greedy lo hi k fuel 0%N st = None.
Proof.
  intros Hlo Hb.
  assert (Hle : N.leb lo 0 = false) by (apply N.leb_gt; lia).
  destruct fuel; simpl; rewrite Hle.
  - now destruct greedy.
  - destruct (below hi 0); [rewrite Hb|]; now destruct greedy.
Qed.

(** A blocked pattern matches nowhere in a text of [P] characters. *)
Lemma exec_blocked f (P : ascii -> bool) r :
  Spec.blocked f P r = true ->
  forall st k, Forall (fun x => P x = true) (rest st) -> exec f r st k = None.
Proof.
  induction r as [| c | | | | items | | r1 IH1 r2 IH2 | r1 IH1 r2 IH2
                 | greedy lo hi r1 IH1 | r1 IH1];
    intros Hb st k Hst; cbn [Spec.blocked Spec.char_test] in Hb;
    try discriminate;
    try (simpl; eapply step_blocked;
         [apply (char_test_blocked f P _ Hb) | exact Hst]).
  - change (exec f (Cat r1 r2) st k)
      with (exec f r1 st (fun st1 => exec f r2 st1 k)).
    destruct r1; try (apply IH1; [exact Hb | exact Hst]);
      try discriminate.
    simpl. destruct (at_boundary st); [|reflexivity]. now apply IH2.
  - apply andb_prop in Hb. destruct Hb as [Hb1 Hb2]. simpl.
    rewrite IH1 by assumption. now apply IH2.
  - apply andb_prop in Hb. destruct Hb as [Hlo Hb1]. simpl.
    apply rep_loop_first_blocked.
    + now apply N.ltb_lt.
    + intros k'. now apply IH1.
  - simpl. now apply IH1.
Qed.

Lemma match_here_blocked f (P : ascii -> bool) r p i t :
  Spec.blocked f P r = true -> Forall (fun x => P x = true) t ->
  match_here f r p i t = None.
Proof. intros Hb Ht. unfold match_here. now apply (exec_blocked f P). Qed.

Lemma search_from_blocked f (P : ascii -> bool) r t :
  Spec.blocked f P r = true -> Forall (fun x => P x = true) t ->
  forall p i, search_from f r p i t = None.
Proof.
  intros Hb Ht. induction Ht as [|c t Hc Ht IH]; intros p i; simpl;
    rewrite (match_here_blocked f P) by (auto using Forall_cons, Forall_nil).
  - reflexivity.
  - apply IH.
Qed.

Lemma search_blocked f (P : ascii -> bool) r t :
  Spec.blocked f P r = true -> Forall (fun x => P x = true) t ->
  search f r t = None.
Proof. intros. unfold search. now apply (search_from_blocked f P). Qed.

Lemma findall_from_blocked f (P : ascii -> bool) r t :
  Spec.blocked f P r = true -> Forall (fun x => P x = true) t ->
  forall p i skip, findall_from f r p i skip t = [].
Proof.
  intros Hb Ht. induction Ht as [|c t Hc Ht IH]; intros p i skip; simpl;
    [reflexivity|].
  destruct skip; [|apply IH].
  rewrite (match_here_blocked f P) by (auto using Forall_cons). apply IH.
Qed.

Lemma findall_blocked f (P : ascii -> bool) r t :
  Spec.blocked f P r = true -> Forall (fun x => P x = true) t ->
  findall f r t = [].
Proof. intros. unfold findall. now apply (findall_from_blocked f P). Qed.

Lemma split_from_blocked f (P : ascii -> bool) r t :
  Spec.blocked f P r = true -> Forall (fun x => P x = true) t ->
  forall p i cur, split_from f r p i 0 cur t = [rev cur ++ t].
Proof.
  intros Hb Ht. induction Ht as [|c t Hc Ht IH]; intros p i cur; simpl.
  - now rewrite app_nil_r.
  - rewrite (match_here_blocked f P) by (auto using Forall_cons).
    rewrite IH. simpl. now rewrite <- app_assoc.
Qed.

Lemma split_blocked f (P : ascii -> bool) r t :
  Spec.blocked f P r = true -> Forall (fun x => P x = true) t ->
  split f r t = [t].
Proof.
  intros. unfold split. now rewrite (split_from_blocked f P).
Qed.

Lemma pos_skip_run (d : ascii -> bool) t p i cp :
  pos (Spec.skip_run d p i t cp) = (i + Spec.run_len d t)%nat.
Proof.
  revert p i. induction t as [|c t IH]; intros p i; simpl; [lia|].
  destruct (d c); simpl; [rewrite IH|]; lia.
Qed.

(** A greedy repetition of a one-character pattern, when whatever follows
    always succeeds, reads the maximal run. *)
Lemma rep_loop_run body (d : ascii -> bool) lo :
  (forall st k, body st k = step d st k) ->
  forall t fuel cnt p i cp,
    (length t <= fuel)%nat ->
    rep_loop body true lo None Some fuel cnt
      {| prev := p; pos := i; rest := t; cap := cp |}
    = if N.leb lo (cnt + N.of_nat (Spec.run_len d t))
      then Some (Spec.skip_run d p i t cp) else None.
Proof.
  intros Hbody. induction t as [|c t IH]; intros fuel cnt p i cp Hfuel.
  - simpl. rewrite N.add_0_r.
    destruct fuel; simpl; [reflexivity|].
    rewrite Hbody. reflexivity.
  - destruct fuel as [|fuel]; [simpl in Hfuel; lia|].
    cbn [rep_loop below]. rewrite Hbody. unfold step at 1.
    cbn [rest pos prev cap Spec.run_len Spec.skip_run].
    destruct (d c) eqn:Hd.
    + assert (Hlt : Nat.ltb i (S i) = true) by (apply Nat.ltb_lt; lia).
      rewrite Hlt, IH by (simpl in Hfuel; lia).
      replace (N.succ cnt + N.of_nat (Spec.run_len d t))%N
        with (cnt + N.of_nat (S (Spec.run_len d t)))%N by lia.
      destruct (N.leb lo (cnt + N.of_nat (S (Spec.run_len d t)))) eqn:E;
        [reflexivity|].
      assert (E' : N.leb lo cnt = false).
      { apply N.leb_gt. apply N.leb_gt in E. lia. }
      now rewrite E'.
    + now rewrite N.add_0_r.
Qed.

Lemma sentence_end_test (x : ascii) :
  existsb (fun i => item_matches SECFilingParser.NOFLAGS i x)
    [ILit "."; ILit "!"; ILit "?"] = Spec.is_sentence_end x.
Proof.
  unfold Spec.is_sentence_end. simpl. unfold lit_matches. simpl.
  now rewrite !orb_false_r, orb_assoc.
Qed.

(** [[.!?]+] at a position: it matches exactly when the character there is
    a sentence end, and then reads the whole run. *)
Lemma match_sentence_end p i t :
  match_here SECFilingParser.NOFLAGS SECFilingParser.sentence_end p i t
  = if Nat.ltb 0 (Spec.run_len Spec.is_sentence_end t)
    then Some (Spec.skip_run Spec.is_sentence_end p i t None)
    else None.
Proof.
  unfold match_here, SECFilingParser.sentence_end, plus.
  cbn [exec rest].
  rewrite (rep_loop_run _ Spec.is_sentence_end) by
    (try (intros st k; cbn [exec]; unfold step;
          destruct (rest st) as [|c t']; [reflexivity|];
          now rewrite sentence_end_test); lia).
  destruct (Spec.run_len Spec.is_sentence_end t) as [|n]; [reflexivity|].
  replace (N.leb 1 (0 + N.of_nat (S n))) with true
    by (symmetry; apply N.leb_le; lia).
  reflexivity.
Qed.

(** [re.split(r'[.!?]+', text)] cuts the text at the maximal runs of
    sentence ends. *)
Lemma split_from_runs t :
  (forall p i cur,
     split_from SECFilingParser.NOFLAGS SECFilingParser.sentence_end
       p i 0 cur t
     = Spec.split_runs Spec.is_sentence_end false cur t)
  /\ (forall p i,
        split_from SECFilingParser.NOFLAGS SECFilingParser.sentence_end
          p i (Spec.run_len Spec.is_sentence_end t) [] t
        = Spec.split_runs Spec.is_sentence_end true [] t).
Proof.
  induction t as [|c t [IHa IHb]].
  - split; reflexivity.
  - assert (Ha : forall p i cur,
      split_from SECFilingParser.NOFLAGS SECFilingParser.sentence_end
        p i 0 cur (c :: t)
      = Spec.split_runs Spec.is_sentence_end false cur (c :: t)).
    { intros p i cur. cbn [split_from Spec.split_runs].
      rewrite match_sentence_end. cbn [Spec.run_len Spec.skip_run].
      destruct (Spec.is_sentence_end c) eqn:Hd.
      - change (Nat.ltb 0 (S (Spec.run_len Spec.is_sentence_end t)))
          with true. cbv iota. rewrite pos_skip_run.
        assert (Hlt : Nat.ltb i (S i + Spec.run_len Spec.is_sentence_end t)
                      = true) by (apply Nat.ltb_lt; lia).
        rewrite Hlt.
        replace (S i + Spec.run_len Spec.is_sentence_end t - i - 1)%nat
          with (Spec.run_len Spec.is_sentence_end t) by lia.
        now rewrite IHb.
      - change (Nat.ltb 0 0) with false. cbv iota. apply IHa. }
    split; [exact Ha|].
    intros p i. cbn [Spec.run_len].
    destruct (Spec.is_sentence_end c) eqn:Hd.
    + cbn [split_from Spec.split_runs]. rewrite Hd. apply IHb.
    + rewrite Ha. cbn [Spec.split_runs]. now rewrite Hd.
Qed.

Lemma split_sentences t :
  split SECFilingParser.NOFLAGS SECFilingParser.sentence_end t
  = Spec.split_runs Spec.is_sentence_end false [] t.
Proof. unfold split. apply split_from_runs. Qed.

(** The matcher only uses what its continuation returns. *)
Lemma rep_loop_ext body greedy lo hi (k1 k2 : state -> option state) :
  (forall st (c1 c2 : state -> option state),
     (forall s, c1 s = c2 s) -> body st c1 = body st c2) ->
  (forall s, k1 s = k2 s) ->
  forall fuel cnt st,
    rep_loop body greedy lo hi k1 fuel cnt st
    = rep_loop body greedy lo hi k2 fuel cnt st.
Proof.
  intros Hbody Hk. induction fuel as [|fuel IH]; intros cnt st; simpl.
  - now rewrite Hk.
  - rewrite Hk.
    replace (body st (fun st1 =>
               if Nat.ltb (pos st) (pos st1)
               then rep_loop body greedy lo hi k1 fuel (N.succ cnt) st1
               else None))
      with (body st (fun st1 =>
               if Nat.ltb (pos st) (pos st1)
               then rep_loop body greedy lo hi k2 fuel (N.succ cnt) st1
               else None)); [reflexivity|].
    apply Hbody. intros s. now rewrite IH.
Qed.

Lemma exec_ext f r :
  forall st (k1 k2 : state -> option state),
    (forall s, k1 s = k2 s) -> exec f r st k1 = exec f r st k2.
Proof.
  induction r as [| c | | | | items | | r1 IH1 r2 IH2 | r1 IH1 r2 IH2
                 | greedy lo hi r1 IH1 | r1 IH1];
    intros st k1 k2 Hk; cbn [exec];
    try (unfold step; destruct (rest st); [reflexivity|];
         match goal with |- context [if ?b then _ else _] =>
           destruct b end; [apply Hk|reflexivity]).
  - apply Hk.
  - now rewrite Hk.
  - apply IH1. intros s. now apply IH2.
  - rewrite (IH1 st k1 k2 Hk), (IH2 st k1 k2 Hk). reflexivity.
  - now apply rep_loop_ext.
  - apply IH1. intros s. apply Hk.
Qed.

(** Transforming the result of the continuation transforms the result of
    the match. *)
Lemma rep_loop_map (h : state -> state) body greedy lo hi
    (k : state -> option state) :
  (forall st (c1 c2 : state -> option state),
     (forall s, c1 s = c2 s) -> body st c1 = body st c2) ->
  (forall st c, body st (fun s => option_map h (c s))
                = option_map h (body st c)) ->
  forall fuel cnt st,
    rep_loop body greedy lo hi (fun s => option_map h (k s)) fuel cnt st
    = option_map h (rep_loop body greedy lo hi k fuel cnt st).
Proof.
  intros Hext Hbody. induction fuel as [|fuel IH]; intros cnt st; simpl.
  - destruct greedy; destruct (N.leb lo cnt); try reflexivity;
      now destruct (k st).
  - set (c := fun st1 =>
               if Nat.ltb (pos st) (pos st1)
               then rep_loop body greedy lo hi k fuel (N.succ cnt) st1
               else None).
    assert (E : body st (fun st1 =>
                  if Nat.ltb (pos st) (pos st1)
                  then rep_loop body greedy lo hi
                         (fun s => option_map h (k s)) fuel (N.succ cnt) st1
                  else None)
                = option_map h (body st c)).
    { rewrite <- Hbody. apply Hext. intros s. unfold c.
      destruct (Nat.ltb (pos st) (pos s)); [apply IH|reflexivity]. }
    rewrite E.
    destruct greedy, (below hi cnt), (N.leb lo cnt);
      try destruct (body st c); simpl; try reflexivity;
      try destruct (k st); reflexivity.
Qed.

Lemma exec_map (h : state -> state) f r :
  forall st (k : state -> option state),
    exec f r st (fun s => option_map h (k s)) = option_map h (exec f r st k).
Proof.
  induction r as [| c | | | | items | | r1 IH1 r2 IH2 | r1 IH1 r2 IH2
                 | greedy lo hi r1 IH1 | r1 IH1];
    intros st k; cbn [exec];
    try (unfold step; destruct (rest st); [reflexivity|];
         match goal with |- context [if ?b then _ else _] =>
           destruct b end; reflexivity).
  - reflexivity.
  - now destruct (at_boundary st).
  - rewrite <- IH1. apply exec_ext. intros s. apply IH2.
  - rewrite IH1, IH2. now destruct (exec f r1 st k).
  - apply rep_loop_map; [apply exec_ext|apply IH1].
  - apply (IH1 st (fun st1 =>
             k {| prev := prev st1; pos := pos st1; rest := rest st1;
                  cap := Some (pos st, pos st1) |})).
Qed.

(** Matching does not depend on where the text starts counting. *)
Lemma rep_loop_shift (d : nat) body greedy lo hi
    (k : state -> option state) :
  (forall st (c1 c2 : state -> option state),
     (forall s, c1 s = c2 s) -> body st c1 = body st c2) ->
  (forall st c, body (Spec.shift d st) c
                = body st (fun s => c (Spec.shift d s))) ->
  forall fuel cnt st,
    rep_loop body greedy lo hi k fuel cnt (Spec.shift d st)
    = rep_loop body greedy lo hi (fun s => k (Spec.shift d s)) fuel cnt st.
Proof.
  intros Hext Hbody. induction fuel as [|fuel IH]; intros cnt st; simpl.
  - reflexivity.
  - match goal with |- context [body (Spec.shift d st) ?c1] =>
      match goal with |- context [body st ?c2] =>
        assert (E : body (Spec.shift d st) c1 = body st c2)
      end
    end.
    { rewrite Hbody. apply Hext. intros s. cbv beta. rewrite <- IH.
      cbn [Spec.shift pos].
      replace (Nat.ltb (pos st + d) (pos s + d))
        with (Nat.ltb (pos st) (pos s)); [reflexivity|].
      destruct (Nat.ltb_spec (pos st) (pos s)),
               (Nat.ltb_spec (pos st + d) (pos s + d)); auto; lia. }
    rewrite E. reflexivity.
Qed.

Lemma exec_shift (d : nat) f r :
  forall st (k : state -> option state),
    exec f r (Spec.shift d st) k = exec f r st (fun s => k (Spec.shift d s)).
Proof.
  induction r as [| c | | | | items | | r1 IH1 r2 IH2 | r1 IH1 r2 IH2
                 | greedy lo hi r1 IH1 | r1 IH1];
    intros st k; cbn [exec];
    try (unfold step; cbn [Spec.shift rest]; destruct (rest st);
         [reflexivity|];
         match goal with |- context [if ?b then _ else _] =>
           destruct b end; reflexivity).
  - reflexivity.
  - reflexivity.
  - rewrite IH1. apply exec_ext. intros s. apply IH2.
  - now rewrite IH1, IH2.
  - cbn [Spec.shift rest]. apply rep_loop_shift; [apply exec_ext|apply IH1].
  - rewrite IH1. reflexivity.
Qed.

Lemma match_here_shift f r p i t :
  match_here f r p i t = option_map (Spec.shift i) (match_here f r p 0 t).
Proof.
  unfold match_here.
  change {| prev := p; pos := i; rest := t; cap := None |}
    with (Spec.shift i {| prev := p; pos := 0; rest := t; cap := None |}).
  rewrite exec_shift. apply (exec_map (Spec.shift i) f r _ Some).
Qed.

(** [search] passes over a prefix in which no match starts. *)
Lemma search_from_skip f r (pre t : Py.str) :
  forall p i,
    (forall j, (j < length pre)%nat ->
       match_here f r (Spec.prev_at p pre j) (i + j) (skipn j (pre ++ t))
       = None) ->
    search_from f r p i (pre ++ t)
    = search_from f r (Spec.prev_at p pre (length pre)) (i + length pre) t.
Proof.
  induction pre as [|c pre IH]; intros p i H.
  - simpl. now rewrite Nat.add_0_r.
  - change ((c :: pre) ++ t) with (c :: (pre ++ t)).
    cbn [search_from].
    pose proof (H 0%nat ltac:(simpl; lia)) as H0.
    rewrite Nat.add_0_r in H0. simpl in H0. rewrite H0.
    rewrite (IH (Some c) (S i)).
    + simpl length. rewrite Nat.add_succ_r. simpl.
      destruct pre; reflexivity.
    + intros j Hj. pose proof (H (S j) ltac:(simpl; lia)) as HS.
      rewrite Nat.add_succ_r in HS. simpl in HS.
      destruct j; simpl in *; exact HS.
Qed.

End Matcher.

(** ** [str.strip] *)

Section Strip.

Lemma lstrip_spec (t : Py.str) :
  exists ws, t = ws ++ Py.lstrip t
             /\ Forall (fun x => Py.isspace x = true) ws.
Proof.
  induction t as [|c t [ws [IH1 IH2]]].
  - now exists [].
  - simpl. destruct (Py.isspace c) eqn:E.
    + exists (c :: ws). split; [simpl; congruence|now constructor].
    + now exists [].
Qed.

Lemma lstrip_head (t : Py.str) (c : ascii) (u : Py.str) :
  Py.lstrip t = c :: u -> Py.isspace c = false.
Proof.
  induction t as [|x t IH]; simpl; [discriminate|].
  destruct (Py.isspace x) eqn:E; [exact IH|].
  intros H. injection H as <- _. exact E.
Qed.

Lemma rstrip_spec (t : Py.str) :
  exists ws, t = Py.rstrip t ++ ws
             /\ Forall (fun x => Py.isspace x = true) ws.
Proof.
  unfold Py.rstrip. destruct (lstrip_spec (rev t)) as [ws [H1 H2]].
  exists (rev ws). split.
  - rewrite <- rev_app_distr, <- H1. now rewrite rev_involutive.
  - now apply Forall_rev.
Qed.

Lemma rstrip_last (t : Py.str) (u : Py.str) (c : ascii) :
  Py.rstrip t = u ++ [c] -> Py.isspace c = false.
Proof.
  unfold Py.rstrip. intros H.
  apply (f_equal (@rev ascii)) in H.
  rewrite rev_involutive, rev_app_distr in H. simpl in H.
  now apply lstrip_head in H.
Qed.

(** What [strip] returns begins and ends with a character that is not white
    space, unless it is empty. *)
Lemma strip_ends (t : Py.str) :
  Py.strip t = []
  \/ exists a b, head (Py.strip t) = Some a /\ last (Py.strip t) = Some b
                 /\ Py.isspace a = false /\ Py.isspace b = false.
Proof.
  unfold Py.strip. set (u := Py.lstrip t).
  destruct (Py.rstrip u) as [|a v] eqn:Hr; [now left|right].
  assert (Ha : Py.isspace a = false).
  { destruct (rstrip_spec u) as [ws [H1 _]]. rewrite Hr in H1.
    simpl in H1. subst u. now apply lstrip_head in H1. }
  destruct (exists_last (l := a :: v)) as [w [b Hb]]; [discriminate|].
  exists a, b. rewrite Hb at 2. rewrite last_snoc.
  repeat split; auto.
  rewrite <- Hr in Hb. now apply rstrip_last in Hb.
Qed.

(** [strip] returns a piece of its argument. *)
Lemma strip_forall (Q : ascii -> Prop) (t : Py.str) :
  Forall Q t -> Forall Q (Py.strip t).
Proof.
  intros H. unfold Py.strip.
  destruct (lstrip_spec t) as [ws [H1 _]].
  destruct (rstrip_spec (Py.lstrip t)) as [ws' [H2 _]].
  rewrite H1, H2 in H.
  apply Forall_app in H. destruct H as [_ H].
  apply Forall_app in H. tauto.
Qed.

Lemma strip_spaces (t : Py.str) :
  Forall (fun x => Py.isspace x = true) t -> Py.strip t = [].
Proof.
  intros H. destruct (strip_ends t) as [E|[a [b [Ha [_ [Hsp _]]]]]]; [exact E|].
  apply strip_forall in H.
  destruct (Py.strip t) as [|x u]; [reflexivity|].
  simpl in Ha. injection Ha as ->. inversion H; congruence.
Qed.

End Strip.

(** ** The risk-sentence selector *)

Section Risk.

Import SECFilingParser.

Lemma risk_step_qualifies (risks : list Py.str) (sentence : Py.str) :
  risk_step risks sentence
  = if Spec.qualifies sentence then risks ++ [Py.strip sentence] else risks.
Proof.
  unfold risk_step, Spec.qualifies.
  destruct (existsb _ risk_keywords); [|reflexivity].
  now destruct (Nat.ltb 50 (length (Py.strip sentence))).
Qed.

Lemma fold_risk_step (sentences : list Py.str) (risks : list Py.str) :
  fold_left risk_step sentences risks
  = risks ++ map Py.strip (List.filter Spec.qualifies sentences).
Proof.
  revert risks. induction sentences as [|x l IH]; intros risks; simpl.
  - now rewrite app_nil_r.
  - rewrite IH, risk_step_qualifies.
    destruct (Spec.qualifies x); [|reflexivity].
    simpl. now rewrite <- app_assoc.
Qed.

Lemma in_firstn {A : Type} (n : nat) (l : list A) (x : A) :
  In x (firstn n l) -> In x l.
Proof.
  intros H. rewrite <- (firstn_skipn n l). apply in_or_app. now left.
Qed.

Lemma split_runs_forall (d : ascii -> bool) (Q : ascii -> Prop) (t : Py.str) :
  (forall c, In c t -> d c = false -> Q c) ->
  forall in_run cur, Forall Q cur ->
    Forall (Forall Q) (Spec.split_runs d in_run cur t).
Proof.
  induction t as [|c t IH]; intros Ht in_run cur Hcur; simpl.
  - constructor; [now apply Forall_rev|constructor].
  - assert (Ht' : forall c0, In c0 t -> d c0 = false -> Q c0)
      by (intros; apply Ht; simpl; auto).
    destruct (d c) eqn:Hd.
    + destruct in_run.
      * apply IH; auto.
      * constructor; [now apply Forall_rev|]. apply IH; auto.
    + apply IH; auto. constructor; auto. apply Ht; simpl; auto.
Qed.

End Risk.

(** ** Rounding to binary64 *)

Section Rounding.

Local Open Scope Z_scope.

Lemma digits2_size (p : positive) : digits2_pos p = Pos.size p.
Proof. induction p; simpl; congruence. Qed.

Lemma digits_upper (p : positive) : Z.pos p < 2 ^ Z.pos (digits2_pos p).
Proof.
  rewrite digits2_size. pose proof (Pos.size_gt p) as H.
  apply Pos2Z.pos_lt_pos in H. now rewrite Pos2Z.inj_pow in H.
Qed.

Lemma digits_lower (p : positive) : 2 ^ (Z.pos (digits2_pos p) - 1) <= Z.pos p.
Proof.
  rewrite digits2_size. pose proof (Pos.size_le p) as H.
  apply Pos2Z.pos_le_pos in H. rewrite Pos2Z.inj_pow in H.
  replace (Z.pos (Pos.size p)) with (Z.succ (Z.pos (Pos.size p) - 1)) in H
    by lia.
  rewrite Z.pow_succ_r in H by lia. lia.
Qed.

(** A number no larger than [2^K] has at most [K + 1] digits. *)
Lemma digits_le (m K : Z) :
  0 <= m -> 0 <= K -> m <= 2 ^ K -> Zdigits2 m <= K + 1.
Proof.
  intros Hm HK Hle. destruct m as [|p|p]; simpl; try lia.
  pose proof (digits_lower p) as Hl.
  destruct (Z_le_gt_dec (Z.pos (digits2_pos p)) (K + 1)) as [|Hgt]; [lia|].
  exfalso.
  assert (H2 : 2 ^ (K + 1) <= 2 ^ (Z.pos (digits2_pos p) - 1))
    by (apply Z.pow_le_mono_r; lia).
  rewrite Z.pow_add_r in H2 by lia. change (2 ^ 1) with 2 in H2. lia.
Qed.

Lemma digits_nonneg (m : Z) : 0 <= Zdigits2 m.
Proof. destruct m; simpl; lia. Qed.

Definition exact_rec (x : shr_record) : Prop :=
  shr_r x = false /\ shr_s x = false.

(** [y] is [x] shifted right by [n] bits, with the lost bits recorded. *)
Definition shifted (n : Z) (x y : shr_record) : Prop :=
  0 <= shr_m x
  /\ shr_m y = shr_m x / 2 ^ n
  /\ (exact_rec y <-> exact_rec x /\ shr_m x mod 2 ^ n = 0).

Lemma mod_mul_zero (m a b : Z) :
  0 < a -> 0 < b ->
  (m mod (a * b) = 0 <-> m mod a = 0 /\ (m / a) mod b = 0).
Proof.
  intros Ha Hb. rewrite Z.rem_mul_r by lia.
  pose proof (Z.mod_pos_bound m a Ha).
  pose proof (Z.mod_pos_bound (m / a) b Hb).
  split; [intros H1|intros [-> ->]; lia].
  assert (0 <= a * ((m / a) mod b)) by nia. split; [lia|nia].
Qed.

Lemma shifted_trans (a b : Z) (x y z : shr_record) :
  0 <= a -> 0 <= b -> shifted a x y -> shifted b y z -> shifted (a + b) x z.
Proof.
  intros Ha Hb (Hx & Hy & Hey) (_ & Hz & Hez).
  assert (Pa : 0 < 2 ^ a) by (apply Z.pow_pos_nonneg; lia).
  assert (Pb : 0 < 2 ^ b) by (apply Z.pow_pos_nonneg; lia).
  split; [assumption|]. split.
  { rewrite Hz, Hy, Z.pow_add_r, Z.div_div by lia. reflexivity. }
  rewrite Z.pow_add_r by lia. rewrite mod_mul_zero by lia.
  rewrite Hez, Hey, Hy. tauto.
Qed.

Lemma shifted_nonneg (n : Z) (x y : shr_record) :
  0 <= n -> shifted n x y -> 0 <= shr_m y.
Proof.
  intros Hn (Hx & Hy & _). rewrite Hy.
  apply Z.div_pos; [lia|]. apply Z.pow_pos_nonneg; lia.
Qed.

Lemma shr_1_shifted (x : shr_record) :
  0 <= shr_m x -> shifted 1 x (shr_1 x).
Proof.
  destruct x as [m r s]. simpl. intros Hm. unfold shifted, exact_rec.
  change (2 ^ 1) with 2.
  destruct m as [|[p|p|]|]; simpl shr_m; simpl shr_r; simpl shr_s;
    try lia; (split; [lia|]).
  - change (0 / 2) with 0. change (0 mod 2) with 0.
    split; [reflexivity|]. destruct r, s; simpl; intuition congruence.
  - assert (E : Z.pos p~1 / 2 = Z.pos p /\ Z.pos p~1 mod 2 = 1)
      by (rewrite Pos2Z.inj_xI; Z.to_euclidean_division_equations; lia).
    destruct E as [-> ->].
    split; [reflexivity|]. destruct r, s; simpl; intuition congruence.
  - assert (E : Z.pos p~0 / 2 = Z.pos p /\ Z.pos p~0 mod 2 = 0)
      by (rewrite Pos2Z.inj_xO; Z.to_euclidean_division_equations; lia).
    destruct E as [-> ->].
    split; [reflexivity|]. destruct r, s; simpl; intuition congruence.
  - change (1 / 2) with 0. change (1 mod 2) with 1.
    split; [reflexivity|]. destruct r, s; simpl; intuition congruence.
Qed.

Lemma iter_shr_1_shifted (p : positive) (x : shr_record) :
  0 <= shr_m x -> shifted (Z.pos p) x (SpecFloat.iter_pos shr_1 p x).
Proof.
  revert x. induction p as [p IH|p IH|]; intros x Hx; simpl.
  - pose proof (shr_1_shifted x Hx) as H1.
    pose proof (shifted_nonneg 1 _ _ ltac:(lia) H1) as Hx1.
    pose proof (IH _ Hx1) as H2.
    pose proof (shifted_nonneg (Z.pos p) _ _ ltac:(lia) H2) as Hx2.
    pose proof (IH _ Hx2) as H3.
    replace (Z.pos p~1) with (1 + (Z.pos p + Z.pos p)) by lia.
    eapply shifted_trans; [lia|lia|exact H1|].
    eapply shifted_trans; [lia|lia|exact H2|exact H3].
  - pose proof (IH _ Hx) as H2.
    pose proof (shifted_nonneg (Z.pos p) _ _ ltac:(lia) H2) as Hx2.
    pose proof (IH _ Hx2) as H3.
    replace (Z.pos p~0) with (Z.pos p + Z.pos p) by lia.
    eapply shifted_trans; [lia|lia|exact H2|exact H3].
  - now apply shr_1_shifted.
Qed.

Lemma shifted_zero (x : shr_record) : 0 <= shr_m x -> shifted 0 x x.
Proof.
  intros Hx. unfold shifted. change (2 ^ 0) with 1.
  rewrite Z.div_1_r, Z.mod_1_r. tauto.
Qed.

Lemma shr_shifted (x : shr_record) (e n : Z) :
  0 <= shr_m x ->
  shifted (Z.max 0 n) x (fst (shr x e n))
  /\ snd (shr x e n) = e + Z.max 0 n.
Proof.
  intros Hx. destruct n as [|p|p]; simpl.
  - split; [now apply shifted_zero|lia].
  - split; [now apply iter_shr_1_shifted|lia].
  - split; [now apply shifted_zero|lia].
Qed.

Lemma fexp64 (e : Z) : fexp F.prec F.emax e = Z.max (e - 53) (-1074).
Proof. reflexivity. Qed.

Lemma shr_record_of_loc_m (m : Z) (l : location) :
  shr_m (shr_record_of_loc m l) = m.
Proof. now destruct l as [|[]]. Qed.

Lemma shr_record_of_loc_exact (m : Z) (l : location) :
  exact_rec (shr_record_of_loc m l) <-> l = loc_Exact.
Proof.
  unfold exact_rec.
  destruct l as [|[]]; simpl; intuition (try discriminate; reflexivity).
Qed.

Lemma loc_of_exact (x : shr_record) :
  exact_rec x -> loc_of_shr_record x = loc_Exact.
Proof. destruct x as [m r s]. unfold exact_rec. simpl. now intros [-> ->]. Qed.

Lemma pow2_pos (n : Z) : 0 <= n -> 0 < 2 ^ n.
Proof. intros. apply Z.pow_pos_nonneg; lia. Qed.

Lemma pow2_split (a b : Z) : 0 <= b -> b <= a -> 2 ^ a = 2 ^ (a - b) * 2 ^ b.
Proof.
  intros Hb Hab. rewrite <- Z.pow_add_r by lia. f_equal. lia.
Qed.

(** Bringing a value [m * 2^e <= 2^k] to its binary64 exponent keeps it
    below [2^k]; if it reaches [2^k], nothing was lost. *)
Lemma shr_fexp_bound (m e k : Z) (l : location) :
  0 <= m -> -1022 <= k -> e <= k -> m <= 2 ^ (k - e) ->
  (m = 2 ^ (k - e) -> l = loc_Exact) ->
  let x := fst (shr_fexp F.prec F.emax m e l) in
  let e' := snd (shr_fexp F.prec F.emax m e l) in
  0 <= shr_m x /\ e <= e' /\ e' <= k /\ e' <= Z.max e (k - 52)
  /\ shr_m x <= 2 ^ (k - e')
  /\ (shr_m x = 2 ^ (k - e') -> loc_of_shr_record x = loc_Exact).
Proof.
  intros Hm Hk Hek Hle Hex. unfold shr_fexp. rewrite fexp64.
  set (x0 := shr_record_of_loc m l).
  set (n := Z.max (Zdigits2 m + e - 53) (-1074) - e).
  assert (Hx0 : 0 <= shr_m x0) by (unfold x0; now rewrite shr_record_of_loc_m).
  destruct (shr_shifted x0 e n Hx0) as [(_ & Hdiv & Hexact) He'].
  cbv zeta. rewrite He'.
  set (y := fst (shr x0 e n)) in *.
  unfold x0 in Hdiv. rewrite shr_record_of_loc_m in Hdiv.
  pose proof (digits_le m (k - e) Hm ltac:(lia) Hle) as Hd.
  pose proof (digits_nonneg m) as Hd0.
  set (N := Z.max 0 n) in *.
  assert (HN : 0 <= N) by lia.
  assert (HeN : e + N <= k) by lia.
  assert (P : 0 < 2 ^ N) by now apply pow2_pos.
  assert (Hsplit : 2 ^ (k - e) = 2 ^ (k - (e + N)) * 2 ^ N).
  { rewrite (pow2_split (k - e) N) by lia. do 2 f_equal. lia. }
  assert (Hy : shr_m y <= 2 ^ (k - (e + N))).
  { rewrite Hdiv. apply Z.div_le_upper_bound; [lia|]. lia. }
  repeat split; try lia.
  - rewrite Hdiv. apply Z.div_pos; lia.
  - intros Heq. apply loc_of_exact. apply Hexact.
    assert (Hmul : shr_m y * 2 ^ N <= m).
    { rewrite Hdiv. rewrite Z.mul_comm. apply Z.mul_div_le. lia. }
    assert (Hmeq : m = 2 ^ (k - e)) by nia.
    split.
    + unfold x0. now apply shr_record_of_loc_exact, Hex.
    + unfold x0. rewrite shr_record_of_loc_m, Hmeq, Hsplit.
      apply Z.mod_mul. lia.
Qed.

Lemma round_nearest_even_bound (mx : Z) (lx : location) :
  mx <= round_nearest_even mx lx <= mx + 1
  /\ (lx = loc_Exact -> round_nearest_even mx lx = mx).
Proof.
  destruct lx as [|[]]; simpl; try destruct (Z.even mx); split;
    try lia; try reflexivity; intros; discriminate.
Qed.

(** Rounding a value [0 <= m * 2^e <= 2^k] to nearest even gives a float
    in the same interval. *)
Lemma binary_round_aux_bound (s : bool) (m e k : Z) (l : location) :
  0 <= m -> -1022 <= k <= 1023 -> e <= k -> e <= 971 -> m <= 2 ^ (k - e) ->
  (m = 2 ^ (k - e) -> l = loc_Exact) ->
  binary_round_aux F.prec F.emax s m e l = S754_zero s
  \/ exists m' e', binary_round_aux F.prec F.emax s m e l = S754_finite s m' e'
                   /\ e' <= k /\ Z.pos m' <= 2 ^ (k - e').
Proof.
  intros Hm Hk Hek He Hle Hex. unfold binary_round_aux.
  pose proof (shr_fexp_bound m e k l Hm ltac:(lia) Hek Hle Hex) as H1.
  destruct (shr_fexp F.prec F.emax m e l) as [x1 e1]. simpl in H1.
  destruct H1 as (Hx1 & Hee1 & He1k & He1 & Hx1le & Hx1ex).
  destruct (round_nearest_even_bound (shr_m x1) (loc_of_shr_record x1))
    as [Hr Hrex].
  set (m1 := round_nearest_even (shr_m x1) (loc_of_shr_record x1)) in *.
  assert (Hm1 : m1 <= 2 ^ (k - e1)).
  { destruct (Z.eq_dec (shr_m x1) (2 ^ (k - e1))) as [E|E].
    - rewrite (Hrex (Hx1ex E)). lia.
    - lia. }
  pose proof (shr_fexp_bound m1 e1 k loc_Exact ltac:(lia) ltac:(lia)
                He1k Hm1 ltac:(reflexivity)) as H2.
  destruct (shr_fexp F.prec F.emax m1 e1 loc_Exact) as [x2 e2]. simpl in H2.
  destruct H2 as (Hx2 & Hee2 & He2k & He2 & Hx2le & _).
  destruct (shr_m x2) as [|m2|m2] eqn:E2; [now left| |lia].
  right. exists m2, e2.
  assert (Hfin : Z.leb e2 (F.emax - F.prec) = true).
  { apply Z.leb_le. unfold F.emax, F.prec. lia. }
  rewrite Hfin. auto.
Qed.

Lemma shr_nonneg (x : shr_record) (e n : Z) :
  0 <= shr_m x -> 0 <= shr_m (fst (shr x e n)).
Proof.
  intros Hx. destruct (shr_shifted x e n Hx) as [Hs _].
  apply (shifted_nonneg (Z.max 0 n) x); [lia|exact Hs].
Qed.

(** Rounding a non-negative mantissa never produces NaN and keeps the
    sign. *)
Lemma binary_round_aux_sign (s : bool) (m e : Z) (l : location) :
  0 <= m ->
  match binary_round_aux F.prec F.emax s m e l with
  | S754_nan => False
  | S754_zero s' | S754_infinity s' | S754_finite s' _ _ => s' = s
  end.
Proof.
  intros Hm. unfold binary_round_aux, shr_fexp.
  set (x0 := shr_record_of_loc m l).
  assert (Hx0 : 0 <= shr_m x0) by (unfold x0; now rewrite shr_record_of_loc_m).
  match goal with |- context [shr x0 e ?n] =>
    pose proof (shr_nonneg x0 e n Hx0) as Hx1;
    destruct (shr x0 e n) as [x1 e1] end.
  simpl in Hx1.
  destruct (round_nearest_even_bound (shr_m x1) (loc_of_shr_record x1))
    as [Hr _].
  set (m1 := round_nearest_even (shr_m x1) (loc_of_shr_record x1)) in *.
  set (y0 := shr_record_of_loc m1 loc_Exact).
  assert (Hy0 : 0 <= shr_m y0) by (simpl; lia).
  match goal with |- context [shr y0 e1 ?n] =>
    pose proof (shr_nonneg y0 e1 n Hy0) as Hx2;
    destruct (shr y0 e1 n) as [x2 e2] end.
  simpl in Hx2.
  destruct (shr_m x2); [reflexivity| |lia].
  now destruct (Z.leb e2 (F.emax - F.prec)).
Qed.

(** The quotient and location computed for a division whose exact
    result is at most [2^k]. *)
Lemma div_core_bound (mx my : positive) (ex ey k : Z) :
  let e' := Z.min (fexp F.prec F.emax
                     (Zdigits2 (Z.pos mx) + ex - (Zdigits2 (Z.pos my) + ey)))
                  (ex - ey) in
  e' <= k ->
  Z.pos mx * 2 ^ (ex - ey - e') <= 2 ^ (k - e') * Z.pos my ->
  exists q l,
    SFdiv_core_binary F.prec F.emax (Z.pos mx) ex (Z.pos my) ey = (q, e', l)
    /\ 0 <= q <= 2 ^ (k - e') /\ (q = 2 ^ (k - e') -> l = loc_Exact).
Proof.
  intros e' He' Hle. unfold SFdiv_core_binary. fold e'.
  set (sh := ex - ey - e').
  assert (Hsh : 0 <= sh) by (unfold sh, e'; lia).
  set (m' := match sh with
             | Z.pos _ => Z.shiftl (Z.pos mx) sh
             | 0 => Z.pos mx
             | Z.neg _ => 0
             end).
  assert (Hm' : m' = Z.pos mx * 2 ^ sh).
  { unfold m'. destruct sh as [|p|p] eqn:E.
    - simpl. lia.
    - rewrite Z.shiftl_mul_pow2 by lia. reflexivity.
    - lia. }
  pose proof (Z.div_eucl_eq m' (Z.pos my) ltac:(lia)) as Heq.
  pose proof (Z.mod_pos_bound m' (Z.pos my) ltac:(lia)) as Hmod.
  unfold Z.modulo in Hmod.
  destruct (Z.div_eucl m' (Z.pos my)) as [q r].
  exists q, (new_location (Z.pos my) r). split; [reflexivity|].
  assert (P : 0 < 2 ^ (k - e')) by (apply pow2_pos; lia).
  assert (Pm : 0 <= m') by (rewrite Hm'; apply Z.mul_nonneg_nonneg;
                            [lia|apply Z.lt_le_incl, pow2_pos; lia]).
  assert (Hle' : m' <= 2 ^ (k - e') * Z.pos my) by (rewrite Hm'; exact Hle).
  set (B := 2 ^ (k - e')) in *.
  assert (Hq0 : 0 <= q) by nia.
  assert (Hq : q <= B) by nia.
  repeat split; try lia.
  intros E. assert (r = 0) by nia. subst r.
  unfold new_location, new_location_even, new_location_odd.
  now destruct (Z.even (Z.pos my)).
Qed.

Lemma le_pow2_zero_exp (m e : Z) : e <= 0 -> m <= 2 ^ (- e) -> m <= 2 ^ (0 - e).
Proof. intros. now replace (0 - e) with (- e) by lia. Qed.

(** The correctly rounded quotient of two integers [0 <= c <= t] lies in
    [[0, 1]]. *)
Lemma of_ratio_unit (c t : Z) :
  0 <= c <= t -> 0 < t -> Spec.in_unit (F.of_ratio c t).
Proof.
  intros Hc Ht. unfold F.of_ratio, F.div, F.exact.
  destruct t as [|pt|pt]; try lia.
  destruct c as [|pc|pc]; try lia; [exact I|].
  unfold SFdiv.
  destruct (div_core_bound pc pt 0 0 0) as (q & l & Hcore & Hq & Hex).
  - lia.
  - rewrite Z.mul_comm. apply Z.mul_le_mono_nonneg_l; [|lia].
    apply Z.lt_le_incl, pow2_pos. lia.
  - rewrite Hcore. cbv zeta in Hq, Hex.
    match type of Hcore with _ = (_, ?e, _) => set (e' := e) in * end.
    assert (He' : e' <= 0) by (unfold e'; lia).
    destruct (binary_round_aux_bound (xorb false false) q e' 0 l)
      as [E|(m' & e2 & E & H1 & H2)]; try lia; try exact Hex.
    + now rewrite E.
    + rewrite E. simpl. auto.
Qed.

(** Halving a float of [[0, 2]] gives a float of [[0, 1]]. *)
Lemma div_two_unit (x : F.float) :
  Spec.le_pow2 1 x -> Spec.in_unit (F.div x F.two).
Proof.
  destruct x as [s| | |[] m e]; simpl; try tauto. intros [He Hm].
  unfold F.div, F.two, SFdiv.
  pose proof (digits_le (Z.pos m) (1 - e) ltac:(lia) ltac:(lia) Hm) as Hd.
  destruct (div_core_bound m 4503599627370496 e (-51) 0)
    as (q & l & Hcore & Hq & Hex).
  - rewrite fexp64. change (Zdigits2 4503599627370496) with 53. lia.
  - rewrite fexp64. change (Zdigits2 4503599627370496) with 53.
    set (e' := Z.min _ _).
    assert (He' : e' <= -53 /\ e' <= e + 51) by (unfold e'; lia).
    change 4503599627370496 with (2 ^ 52).
    rewrite <- Z.pow_add_r by lia.
    apply Z.le_trans with (2 ^ (1 - e) * 2 ^ (e - -51 - e')).
    + apply Z.mul_le_mono_nonneg_r; [|exact Hm].
      apply Z.lt_le_incl, pow2_pos. lia.
    + rewrite <- Z.pow_add_r by lia. apply Z.pow_le_mono_r; lia.
  - rewrite Hcore. cbv zeta in Hq, Hex.
    match type of Hcore with _ = (_, ?e0, _) => set (e' := e0) in * end.
    assert (He' : e' <= 0).
    { unfold e'. rewrite fexp64.
      change (Zdigits2 4503599627370496) with 53. lia. }
    destruct (binary_round_aux_bound false q e' 0 l)
      as [E|(m' & e2 & E & H1 & H2)]; try lia; try exact Hex.
    + now rewrite E.
    + rewrite E. simpl. auto.
Qed.

Lemma shl_align_spec (mx : positive) (ex ez : Z) :
  snd (shl_align mx ex ez) = Z.min ex ez
  /\ Z.pos (fst (shl_align mx ex ez)) = Z.pos mx * 2 ^ (ex - Z.min ex ez).
Proof.
  unfold shl_align. destruct (ez - ex) as [|d|d] eqn:E; simpl.
  - replace (ex - Z.min ex ez) with 0 by lia. simpl. lia.
  - replace (ex - Z.min ex ez) with 0 by lia. simpl. lia.
  - replace (ex - Z.min ex ez) with (Z.pos d) by lia.
    change (Pos.iter xO mx d) with (shift_pos d mx).
    rewrite shift_pos_correct, Z.pow_pos_fold. lia.
Qed.

(** Normalising an exact value [mx * 2^ex <= 2^k]. *)
Lemma binary_round_bound (s : bool) (mx : positive) (ex k : Z) :
  -1022 <= k <= 1023 -> ex <= k -> ex <= 971 -> Z.pos mx <= 2 ^ (k - ex) ->
  binary_round F.prec F.emax s mx ex = S754_zero s
  \/ exists m' e', binary_round F.prec F.emax s mx ex = S754_finite s m' e'
                  /\ e' <= k /\ Z.pos m' <= 2 ^ (k - e').
Proof.
  intros Hk Hex He Hle. unfold binary_round.
  destruct (shl_align_spec mx ex
              (fexp F.prec F.emax (Z.pos (digits2_pos mx) + ex))) as [H1 H2].
  destruct (shl_align mx ex _) as [mz ez]. simpl in H1, H2.
  apply binary_round_aux_bound; try lia; [|reflexivity].
  rewrite H2, <- H1.
  apply Z.le_trans with (2 ^ (k - ex) * 2 ^ (ex - ez)).
  - apply Z.mul_le_mono_nonneg_r; [|exact Hle].
    apply Z.lt_le_incl, pow2_pos. lia.
  - rewrite <- Z.pow_add_r by lia. apply Z.pow_le_mono_r; lia.
Qed.

Lemma binary_normalize_bound (m e k : Z) :
  -1022 <= k <= 1023 -> e <= k -> e <= 971 -> Z.abs m <= 2 ^ (k - e) ->
  Spec.mag_le_pow2 k (binary_normalize F.prec F.emax m e false)
  /\ (0 <= m -> Spec.le_pow2 k (binary_normalize F.prec F.emax m e false)).
Proof.
  intros Hk Hek He Hle. unfold binary_normalize.
  destruct m as [|p|p]; simpl.
  - tauto.
  - destruct (binary_round_bound false p e k) as [E|(m' & e' & E & H1 & H2)];
      try lia; rewrite E; simpl; tauto.
  - split; [|lia].
    destruct (binary_round_bound true p e k) as [E|(m' & e' & E & H1 & H2)];
      try lia; rewrite E; simpl; tauto.
Qed.

(** The aligned mantissa of a float of magnitude at most [2^k]. *)
Lemma aligned_bound (m : positive) (e ez k : Z) :
  e <= k -> Z.pos m <= 2 ^ (k - e) -> ez <= e ->
  Z.pos (fst (shl_align m e ez)) <= 2 ^ (k - ez).
Proof.
  intros He Hm Hez. destruct (shl_align_spec m e ez) as [_ ->].
  replace (Z.min e ez) with ez by lia.
  apply Z.le_trans with (2 ^ (k - e) * 2 ^ (e - ez)).
  - apply Z.mul_le_mono_nonneg_r; [|exact Hm].
    apply Z.lt_le_incl, pow2_pos. lia.
  - rewrite <- Z.pow_add_r by lia. apply Z.pow_le_mono_r; lia.
Qed.

(** The difference of two floats of [[0, 1]] lies in [[-1, 1]]. *)
Lemma sub_unit (p n : F.float) :
  Spec.in_unit p -> Spec.in_unit n -> Spec.abs_le_one (F.sub p n).
Proof.
  unfold Spec.in_unit, Spec.abs_le_one, F.sub.
  destruct p as [sp| | |[] mp ep]; simpl; try tauto;
    destruct n as [sn| | |[] mn en]; simpl; try tauto.
  - now destruct sp, sn.
  - intros [Hp1 Hp2] [Hn1 Hn2].
    pose proof (aligned_bound mp ep (Z.min ep en) 0 Hp1 Hp2 ltac:(lia)) as Ha.
    pose proof (aligned_bound mn en (Z.min ep en) 0 Hn1 Hn2 ltac:(lia)) as Hb.
    apply binary_normalize_bound; lia.
Qed.

(** Adding [1.0] to a float of [[-1, 1]] gives a float of [[0, 2]]. *)
Lemma add_one_bound (d : F.float) :
  Spec.abs_le_one d -> Spec.le_pow2 1 (F.add d F.one).
Proof.
  unfold Spec.abs_le_one, F.add, F.one.
  destruct d as [sd| | |sd md ed]; simpl; try tauto.
  - intros _. split; [lia|]. vm_compute. discriminate.
  - intros [Hd1 Hd2].
    set (ez := Z.min ed (-52)).
    pose proof (aligned_bound md ed ez 0 Hd1 Hd2 ltac:(lia)) as Ha.
    destruct (shl_align_spec 4503599627370496 (-52) ez) as [_ Hb].
    replace (Z.min (-52) ez) with ez in Hb by lia.
    change (Z.pos 4503599627370496) with (2 ^ 52) in Hb.
    rewrite <- Z.pow_add_r in Hb by lia.
    replace (52 + (-52 - ez)) with (0 - ez) in Hb by lia.
    assert (P : 2 ^ (1 - ez) = 2 * 2 ^ (0 - ez)).
    { replace (1 - ez) with (Z.succ (0 - ez)) by lia.
      apply Z.pow_succ_r. lia. }
    apply binary_normalize_bound; try lia.
    + destruct sd; simpl; lia.
    + destruct sd; simpl; lia.
Qed.

(** [(p - n + 1) / 2] for scores [p] and [n] of [[0, 1]]. *)
Lemma overall_unit (p n : F.float) :
  Spec.in_unit p -> Spec.in_unit n ->
  Spec.in_unit (F.div (F.add (F.sub p n) F.one) F.two).
Proof.
  intros Hp Hn. apply div_two_unit, add_one_bound, sub_unit; assumption.
Qed.

Lemma div_core_nonneg (mx my : positive) (ex ey : Z) :
  0 <= fst (fst (SFdiv_core_binary F.prec F.emax (Z.pos mx) ex (Z.pos my) ey)).
Proof.
  unfold SFdiv_core_binary.
  set (sh := ex - ey - _).
  set (m' := match sh with
             | Z.pos _ => Z.shiftl (Z.pos mx) sh
             | 0 => Z.pos mx
             | Z.neg _ => 0
             end).
  assert (Pm : 0 <= m').
  { unfold m'. destruct sh; try lia. apply Z.shiftl_nonneg. lia. }
  pose proof (Z.div_eucl_eq m' (Z.pos my) ltac:(lia)) as Heq.
  pose proof (Z.mod_pos_bound m' (Z.pos my) ltac:(lia)) as Hmod.
  unfold Z.modulo in Hmod.
  destruct (Z.div_eucl m' (Z.pos my)) as [q r]. simpl. nia.
Qed.

(** The quotient of a natural number by a positive one is a non-negative
    float or [+inf], never NaN. *)
Lemma of_ratio_nonneg (n d : Z) :
  0 <= n -> 0 < d -> Spec.nonneg_or_inf (F.of_ratio n d).
Proof.
  intros Hn Hd. unfold F.of_ratio, F.div, F.exact.
  destruct d as [|pd|pd]; try lia.
  destruct n as [|pn|pn]; try lia; [exact I|].
  unfold SFdiv.
  pose proof (div_core_nonneg pn pd 0 0) as Hq.
  destruct (SFdiv_core_binary F.prec F.emax (Z.pos pn) 0 (Z.pos pd) 0)
    as [[q e] l]. simpl in Hq.
  pose proof (binary_round_aux_sign (xorb false false) q e l Hq) as Hs.
  destruct (binary_round_aux F.prec F.emax (xorb false false) q e l);
    simpl in *; subst; tauto.
Qed.

Lemma mul_thousand_nonneg (v : F.float) :
  Spec.nonneg_or_inf v -> Spec.nonneg_or_inf (F.mul v F.thousand).
Proof.
  unfold F.mul, F.thousand.
  destruct v as [[]|[]| |[] m e]; simpl; try tauto. intros _.
  match goal with |- context [binary_round_aux _ _ ?s ?m ?e ?l] =>
    pose proof (binary_round_aux_sign s m e l ltac:(lia)) as Hs;
    destruct (binary_round_aux F.prec F.emax s m e l) end;
    simpl in *; subst; tauto.
Qed.

Lemma span_digits_decimal (t : Py.str) :
  Forall (fun c => Py.isdecimal c = true) (fst (F.span_digits t)).
Proof.
  induction t as [|c t IH]; simpl; [constructor|].
  destruct (Py.isdecimal c) eqn:E; [|constructor].
  destruct (F.span_digits t) as [d r]. simpl in *. now constructor.
Qed.

Lemma digit_val_nonneg (c : ascii) : Py.isdecimal c = true -> 0 <= F.digit_val c.
Proof.
  unfold Py.isdecimal, Py.in_range, F.digit_val. intros H.
  apply andb_prop in H. destruct H as [H _]. apply N.leb_le in H. lia.
Qed.

Lemma digits_val_nonneg (t : Py.str) :
  Forall (fun c => Py.isdecimal c = true) t -> 0 <= F.digits_val t.
Proof.
  unfold F.digits_val. intros H.
  assert (G : forall acc, 0 <= acc ->
            0 <= fold_left (fun a c => 10 * a + F.digit_val c) t acc).
  { induction H as [|c t Hc Ht IH]; intros acc Hacc; simpl; [exact Hacc|].
    apply IH. pose proof (digit_val_nonneg c Hc). lia. }
  apply G. lia.
Qed.

(** A parsed numeral is a non-negative float or [+inf]. *)
Lemma of_str_nonneg (t : Py.str) (v : F.float) :
  F.of_str t = Some v -> Spec.nonneg_or_inf v.
Proof.
  unfold F.of_str. pose proof (span_digits_decimal t) as Hip.
  destruct (F.span_digits t) as [ip r]. simpl in Hip.
  destruct r as [|c fp].
  - destruct ip; [discriminate|]. intros H. injection H as <-.
    apply of_ratio_nonneg; [now apply digits_val_nonneg|lia].
  - destruct (_ && _)%bool eqn:E; [|discriminate].
    intros H. injection H as <-.
    apply andb_prop in E. destruct E as [E _].
    apply andb_prop in E. destruct E as [_ Hfp].
    rewrite forallb_forall in Hfp.
    apply of_ratio_nonneg.
    + apply digits_val_nonneg. apply Forall_app. split; [exact Hip|].
      apply Forall_forall. intros x Hx. apply Hfp.
      now apply list_elem_of_In.
    + apply Z.pow_pos_nonneg; lia.
Qed.

Lemma le_pow2_finite (k : Z) (x : F.float) :
  Spec.le_pow2 k x -> F.is_finite x = true.
Proof. destruct x as [| | |[]]; simpl; tauto. Qed.

(** The correctly rounded quotient of [n] by [d], when [n / d <= 2^k]. *)
Lemma of_ratio_le_pow2 (n d k : Z) :
  0 <= n -> 0 < d -> 0 <= k <= 1023 -> n <= 2 ^ k * d ->
  Spec.le_pow2 k (F.of_ratio n d).
Proof.
  intros Hn Hd Hk Hle. unfold F.of_ratio, F.div, F.exact.
  destruct d as [|pd|pd]; try lia.
  destruct n as [|pn|pn]; try lia; [exact I|].
  unfold SFdiv.
  destruct (div_core_bound pn pd 0 0 k) as (q & l & Hcore & Hq & Hex).
  - lia.
  - set (e' := Z.min _ _).
    assert (He' : e' <= 0) by (unfold e'; lia).
    replace (k - e') with (k + (0 - 0 - e')) by lia.
    rewrite Z.pow_add_r by lia.
    assert (P : 0 < 2 ^ (0 - 0 - e')) by (apply pow2_pos; lia).
    nia.
  - rewrite Hcore. cbv zeta in Hq, Hex.
    match type of Hcore with _ = (_, ?e, _) => set (e' := e) in * end.
    assert (He' : e' <= 0) by (unfold e'; lia).
    destruct (binary_round_aux_bound (xorb false false) q e' k l)
      as [E|(m' & e2 & E & H1 & H2)]; try lia; try exact Hex.
    + now rewrite E.
    + rewrite E. simpl. auto.
Qed.

(** Scaling by 1000 a float of [[0, 2^k]] gives a float of
    [[0, 2^(k+10)]]. *)
Lemma mul_thousand_le_pow2 (v : F.float) (k : Z) :
  -1022 <= k <= 1013 -> Spec.le_pow2 k v ->
  Spec.le_pow2 (k + 10) (F.mul v F.thousand).
Proof.
  intros Hk. unfold F.mul, F.thousand.
  destruct v as [[]| | |[] m e]; simpl; try tauto. intros [He Hm].
  assert (P : 0 < 2 ^ (k - e)) by (apply pow2_pos; lia).
  assert (Hprod : Z.pos (m * 8796093022208000) <= 2 ^ (k + 10 - (e + -43))).
  { replace (k + 10 - (e + -43)) with (k - e + 53) by lia.
    rewrite Z.pow_add_r by lia. rewrite Pos2Z.inj_mul.
    assert (Z.pos 8796093022208000 <= 2 ^ 53) by (vm_compute; discriminate).
    nia. }
  destruct (binary_round_aux_bound false (Z.pos (m * 8796093022208000))
              (e + -43) (k + 10) loc_Exact)
    as [E|(m' & e2 & E & H1 & H2)]; try lia; try reflexivity.
  - now rewrite E.
  - rewrite E. simpl. auto.
Qed.

Lemma digit_val_le (c : ascii) : Py.isdecimal c = true -> F.digit_val c <= 9.
Proof.
  unfold Py.isdecimal, Py.in_range, F.digit_val. intros H.
  apply andb_prop in H. destruct H as [_ H]. apply N.leb_le in H. lia.
Qed.

(** A numeral of [n] digits is below [10^n]. *)
Lemma digits_val_lt (t : Py.str) :
  Forall (fun c => Py.isdecimal c = true) t ->
  F.digits_val t < 10 ^ Z.of_nat (length t).
Proof.
  unfold F.digits_val. intros H.
  assert (G : forall acc, 0 <= acc ->
            fold_left (fun a c => 10 * a + F.digit_val c) t acc
            < (acc + 1) * 10 ^ Z.of_nat (length t)).
  { induction H as [|c t Hc Ht IH]; intros acc Hacc.
    - simpl. lia.
    - cbn [fold_left length].
      pose proof (digit_val_nonneg c Hc). pose proof (digit_val_le c Hc).
      specialize (IH (10 * acc + F.digit_val c) ltac:(lia)).
      rewrite Nat2Z.inj_succ, Z.pow_succ_r by lia.
      assert (0 < 10 ^ Z.of_nat (length t))
        by (apply Z.pow_pos_nonneg; lia).
      nia. }
  specialize (G 0 ltac:(lia)). lia.
Qed.

Lemma span_digits_app (t : Py.str) :
  t = fst (F.span_digits t) ++ snd (F.span_digits t).
Proof.
  induction t as [|c t IH]; simpl; [reflexivity|].
  destruct (Py.isdecimal c); [|reflexivity].
  destruct (F.span_digits t) as [d r]. simpl in *. congruence.
Qed.

(** A numeral of at most 300 characters parses to a float of
    [[0, 2^1000]]. *)
Lemma of_str_bound (t : Py.str) (v : F.float) :
  F.of_str t = Some v -> (length t <= 300)%nat -> Spec.le_pow2 1000 v.
Proof.
  unfold F.of_str. pose proof (span_digits_decimal t) as Hip.
  pose proof (span_digits_app t) as Happ.
  destruct (F.span_digits t) as [ip r]. simpl in Hip, Happ.
  assert (B : 10 ^ 300 <= 2 ^ 1000) by (vm_compute; discriminate).
  assert (Hpow : forall n, (n <= 300)%nat -> 10 ^ Z.of_nat n <= 2 ^ 1000).
  { intros n Hn. apply Z.le_trans with (10 ^ 300); [|exact B].
    apply Z.pow_le_mono_r; lia. }
  destruct r as [|c fp].
  - destruct ip as [|c0 ip0]; [discriminate|]. intros H Hlen. injection H as <-.
    rewrite app_nil_r in Happ. subst t.
    pose proof (digits_val_lt _ Hip) as Hlt.
    pose proof (digits_val_nonneg _ Hip) as H0.
    specialize (Hpow _ Hlen).
    apply of_ratio_le_pow2; lia.
  - destruct (_ && _)%bool eqn:E; [|discriminate].
    intros H Hlen. injection H as <-.
    apply andb_prop in E. destruct E as [E _].
    apply andb_prop in E. destruct E as [_ Hfp].
    rewrite forallb_forall in Hfp.
    assert (Hall : Forall (fun c => Py.isdecimal c = true) (ip ++ fp)).
    { apply Forall_app. split; [exact Hip|].
      apply Forall_forall. intros x Hx. apply Hfp.
      now apply list_elem_of_In. }
    pose proof (digits_val_lt _ Hall) as Hlt.
    pose proof (digits_val_nonneg _ Hall) as H0.
    assert (Hl : (length (ip ++ fp) <= 300)%nat).
    { rewrite Happ in Hlen. rewrite length_app in *. simpl in Hlen. lia. }
    specialize (Hpow _ Hl).
    assert (Pd : 0 < 10 ^ Z.of_nat (length fp))
      by (apply Z.pow_pos_nonneg; lia).
    apply of_ratio_le_pow2; try lia; nia.
Qed.

End Rounding.

(** ** The sentiment scorer *)

Section Sentiment.

Import SentimentAnalyzer.

Lemma bind_ok {A B : Type} (x : exc A) (g : A -> exc B) (a : A) :
  x = Ok a -> bind x g = g a.
Proof. now intros ->. Qed.

Lemma foldM_count_word (t : Py.str) (category : string)
    (lexicon : list Py.str) (cs : gmap string nat) (c : nat) :
  cs !! category = Some c ->
  foldM (count_word t category) lexicon cs
  = Ok (<[category :=
            fold_left (fun acc w => (acc + Py.count t w)%nat) lexicon c]> cs).
Proof.
  revert cs c. induction lexicon as [|w l IH]; intros cs c Hc; simpl.
  - now rewrite insert_id.
  - unfold count_word at 1, getitem. rewrite Hc. simpl.
    rewrite (IH _ (c + Py.count t w)%nat) by apply lookup_insert_eq.
    now rewrite insert_insert_eq.
Qed.

Lemma counts_of_lookup (cp cn cu : nat) :
  Spec.counts_of cp cn cu !! "positive"%string = Some cp
  /\ Spec.counts_of cp cn cu !! "negative"%string = Some cn
  /\ Spec.counts_of cp cn cu !! "uncertainty"%string = Some cu.
Proof. unfold Spec.counts_of. repeat split; by simplify_map_eq. Qed.

(** The two loops of [analyze_text] leave, for each category, the sum of
    the counts of its words. *)
Lemma count_loops (text : Py.str) :
  foldM (count_category (Py.lower text)) _load_lexicons
    (Spec.counts_of 0 0 0)
  = Ok (Spec.counts_of (Spec.category_count "positive" text)
          (Spec.category_count "negative" text)
          (Spec.category_count "uncertainty" text)).
Proof.
  unfold _load_lexicons. cbn [foldM count_category].
  rewrite (foldM_count_word _ _ _ _ 0%nat) by apply counts_of_lookup.
  cbn [bind].
  rewrite (foldM_count_word _ _ _ _ 0%nat)
    by (rewrite lookup_insert_ne by discriminate; apply counts_of_lookup).
  cbn [bind].
  rewrite (foldM_count_word _ _ _ _ 0%nat)
    by (rewrite !lookup_insert_ne by discriminate; apply counts_of_lookup).
  unfold bind. reflexivity.
Qed.

Lemma total_of_counts (cp cn cu : nat) :
  total_of (Spec.counts_of cp cn cu) = (cp + cn + cu)%nat.
Proof.
  unfold total_of, Spec.counts_of.
  rewrite map_fold_insert_L; [|intros; lia|by simplify_map_eq].
  rewrite map_fold_insert_L; [|intros; lia|by simplify_map_eq].
  rewrite map_fold_singleton. lia.
Qed.

Lemma dict_comp_ok {A B : Type} (g : A -> exc B) (h : A -> B)
    (d : gmap string A) :
  (forall k v, d !! k = Some v -> g v = Ok (h v)) ->
  dict_comp g d = Ok (h <$> d).
Proof.
  unfold dict_comp.
  apply (map_fold_weak_ind
           (fun r m => (forall k v, m !! k = Some v -> g v = Ok (h v)) ->
                       r = Ok (h <$> m))).
  - intros _. now rewrite fmap_empty.
  - intros i x m r Hi IH Hall.
    rewrite IH.
    + cbn [bind]. rewrite (Hall i x) by apply lookup_insert_eq.
      cbn [bind]. now rewrite fmap_insert.
    + intros k v Hk. apply (Hall k).
      rewrite lookup_insert_ne; [exact Hk|]. intros ->. congruence.
Qed.

Lemma counts_of_inv (cp cn cu : nat) (k : string) (v : nat) :
  Spec.counts_of cp cn cu !! k = Some v -> v = cp \/ v = cn \/ v = cu.
Proof.
  unfold Spec.counts_of. intros H.
  destruct (decide (k = "uncertainty"%string)) as [->|H1];
    [simplify_map_eq; auto|].
  destruct (decide (k = "negative"%string)) as [->|H2];
    [simplify_map_eq; auto|].
  destruct (decide (k = "positive"%string)) as [->|H3];
    simplify_map_eq; auto.
Qed.

Lemma in_unit_not_inf (x : F.float) : Spec.in_unit x -> F.is_inf x = false.
Proof. destruct x as [| | |[]]; simpl; tauto. Qed.

Lemma int_truediv_ok (c total : nat) :
  (c <= total)%nat -> (0 < total)%nat ->
  int_truediv (Z.of_nat c) (Z.of_nat total) = Ok (Spec.score c total).
Proof.
  intros Hc Ht. unfold int_truediv, Spec.score.
  replace (Z.eqb (Z.of_nat total) 0) with false
    by (symmetry; apply Z.eqb_neq; lia).
  rewrite in_unit_not_inf; [reflexivity|].
  apply of_ratio_unit; lia.
Qed.

(** [analyze_text] never raises, and returns [Spec.sentiment_of]. *)
Lemma analyze_text_eq (text : Py.str) :
  analyze_text text = Ok (Spec.sentiment_of text).
Proof.
  unfold analyze_text.
  change (<["uncertainty"%string := 0%nat]>
            (<["negative"%string := 0%nat]> {["positive"%string := 0%nat]}))
    with (Spec.counts_of 0 0 0).
  rewrite count_loops. cbn [bind]. rewrite total_of_counts.
  unfold Spec.sentiment_of. fold (Spec.total_count text).
  set (cp := Spec.category_count "positive" text).
  set (cn := Spec.category_count "negative" text).
  set (cu := Spec.category_count "uncertainty" text).
  assert (Htot : Spec.total_count text = (cp + cn + cu)%nat) by reflexivity.
  destruct (Nat.eqb (Spec.total_count text) 0) eqn:E; [reflexivity|].
  apply Nat.eqb_neq in E.
  rewrite (dict_comp_ok _ (fun c => Spec.score c (Spec.total_count text))).
  - cbn [bind]. unfold getitem. rewrite !lookup_fmap.
    destruct (counts_of_lookup cp cn cu) as (-> & -> & _). reflexivity.
  - intros k v Hk. apply int_truediv_ok; [|lia].
    apply counts_of_inv in Hk. lia.
Qed.

(** Counting occurrences.  When the first character of a word occurs
    nowhere else in it, two occurrences cannot overlap and [str.count]
    counts every position at which the word occurs. *)
Lemma skipn_inside (w u : Py.str) (j : nat) :
  (j < length w)%nat ->
  exists x rest, skipn j (w ++ u) = x :: rest /\ In x w.
Proof.
  revert j. induction w as [|y w IH]; intros j Hj; simpl in Hj; [lia|].
  destruct j as [|j].
  - exists y, (w ++ u). split; [reflexivity|now left].
  - destruct (IH j ltac:(lia)) as (x & rest & E & Hin).
    exists x, rest. split; [exact E|now right].
Qed.

Lemma startswith_skip_inside (c : ascii) (w u : Py.str) (j : nat) :
  ~ In c w -> (j < length w)%nat ->
  Py.startswith (c :: w) (skipn j (w ++ u)) = false.
Proof.
  intros Hc Hj. destruct (skipn_inside w u j Hj) as (x & rest & -> & Hin).
  simpl. destruct (Py.ascii_eqb c x) eqn:E; [|reflexivity].
  apply Ascii.eqb_eq in E. subst. contradiction.
Qed.

Lemma count_occurrences_from (c : ascii) (w t : Py.str) (skip : nat) :
  ~ In c w ->
  (forall j, (j < skip)%nat -> Py.startswith (c :: w) (skipn j t) = false) ->
  Py.count_from (c :: w) skip t = Spec.occurrences (c :: w) t.
Proof.
  intros Hc. revert skip. induction t as [|x t IH]; intros skip Hskip.
  - reflexivity.
  - change (Py.count_from (c :: w) skip (x :: t))
      with (match skip with
            | S k => Py.count_from (c :: w) k t
            | O => if Py.startswith (c :: w) (x :: t)
                   then S (Py.count_from (c :: w)
                             (Nat.pred (length (c :: w))) t)
                   else Py.count_from (c :: w) 0 t
            end).
    change (Spec.occurrences (c :: w) (x :: t))
      with ((if Py.startswith (c :: w) (x :: t) then 1 else 0)
            + Spec.occurrences (c :: w) t)%nat.
    destruct skip as [|k].
    + destruct (Py.startswith (c :: w) (x :: t)) eqn:E.
      * apply startswith_iff in E. destruct E as [u Hu].
        simpl in Hu. injection Hu as -> ->.
        rewrite IH; [reflexivity|].
        intros j Hj. simpl in Hj. now apply startswith_skip_inside.
      * rewrite IH; [reflexivity|]. intros j Hj. lia.
    + pose proof (Hskip 0%nat ltac:(lia)) as H0.
      change (skipn 0 (x :: t)) with (x :: t) in H0. rewrite H0.
      rewrite IH; [reflexivity|].
      intros j Hj. apply (Hskip (S j)). lia.
Qed.

Lemma count_occurrences (c : ascii) (w t : Py.str) :
  ~ In c w -> Py.count t (c :: w) = Spec.occurrences (c :: w) t.
Proof.
  intros Hc. unfold Py.count. apply count_occurrences_from; [exact Hc|].
  intros j Hj. lia.
Qed.

Lemma startswith_prefix (a b t : Py.str) :
  Py.startswith (a ++ b) t = true -> Py.startswith a t = true.
Proof.
  rewrite !startswith_iff. intros [u ->]. exists (b ++ u).
  now rewrite app_assoc.
Qed.

Lemma occurrences_prefix (a b t : Py.str) :
  (Spec.occurrences (a ++ b) t <= Spec.occurrences a t)%nat.
Proof.
  induction t as [|x t IH]; simpl; [lia|].
  destruct (Py.startswith (a ++ b) (x :: t)) eqn:E.
  - apply startswith_prefix in E. rewrite E. lia.
  - destruct (Py.startswith a (x :: t)); lia.
Qed.

Lemma lexicon_count_member (t w : Py.str) (lexicon : list Py.str) :
  In w lexicon -> (Py.count t w <= Spec.lexicon_count t lexicon)%nat.
Proof.
  unfold Spec.lexicon_count.
  assert (G : forall l acc,
            (acc <= fold_left (fun a x => (a + Py.count t x)%nat) l acc)%nat).
  { induction l as [|x l IH]; intros acc; simpl; [lia|].
    specialize (IH (acc + Py.count t x)%nat). lia. }
  generalize 0%nat.
  induction lexicon as [|x l IH]; intros acc Hin; simpl; [destruct Hin|].
  destruct Hin as [->|Hin].
  - specialize (G l (acc + Py.count t w)%nat). lia.
  - now apply IH.
Qed.

Lemma count_from_absent (w t : Py.str) (skip : nat) :
  Py.contains w t = false -> Py.count_from w skip t = 0%nat.
Proof.
  revert skip. induction t as [|x t IH]; intros skip H.
  - simpl in H. destruct w; [discriminate|reflexivity].
  - change (Py.contains w (x :: t))
      with (Py.startswith w (x :: t) || Py.contains w t)%bool in H.
    apply orb_false_elim in H. destruct H as [H1 H2].
    change (Py.count_from w skip (x :: t))
      with (match skip with
            | S k => Py.count_from w k t
            | O => if Py.startswith w (x :: t)
                   then S (Py.count_from w (Nat.pred (length w)) t)
                   else Py.count_from w 0 t
            end).
    destruct skip; [rewrite H1|]; now apply IH.
Qed.

Lemma lexicon_count_absent (t : Py.str) (lexicon : list Py.str) :
  forallb (fun w => negb (Py.contains w t)) lexicon = true ->
  Spec.lexicon_count t lexicon = 0%nat.
Proof.
  unfold Spec.lexicon_count. intros H.
  assert (G : forall acc,
            fold_left (fun a w => (a + Py.count t w)%nat) lexicon acc = acc).
  { induction lexicon as [|w l IH]; intros acc; simpl in *; [reflexivity|].
    apply andb_prop in H. destruct H as [Hw Hl].
    apply negb_true_iff in Hw. unfold Py.count at 2.
    rewrite (count_from_absent w t 0 Hw), Nat.add_0_r. now apply IH. }
  apply G.
Qed.

Lemma no_lexicon_word_counts (text : Py.str) :
  Spec.no_lexicon_word text = true ->
  Spec.category_count "positive" text = 0%nat
  /\ Spec.category_count "negative" text = 0%nat
  /\ Spec.category_count "uncertainty" text = 0%nat.
Proof.
  unfold Spec.no_lexicon_word, _load_lexicons. cbn [forallb snd].
  rewrite !andb_true_iff. intros (Hp & Hn & Hu & _).
  repeat split; apply lexicon_count_absent; assumption.
Qed.

(** No float is both above [0.6] and below [0.4]. *)
Lemma not_above_and_below (x : F.float) :
  F.ltb F.c0_6 x = true -> F.ltb x F.c0_4 = true -> False.
Proof.
  intros H1 H2.
  destruct x as [[]|[]| |[] m e];
    cbv beta iota delta [F.ltb SFltb SFcompare F.c0_6 F.c0_4] in H1, H2;
    try discriminate.
  destruct (Z.compare_spec (-53) e), (Z.compare_spec e (-54));
    try discriminate; lia.
Qed.

Lemma label_cases (x : F.float) :
  (_label_sentiment x = "Positive"%string <-> F.ltb F.c0_6 x = true)
  /\ (_label_sentiment x = "Negative"%string <-> F.ltb x F.c0_4 = true)
  /\ (_label_sentiment x = "Neutral"%string
      <-> F.ltb F.c0_6 x = false /\ F.ltb x F.c0_4 = false).
Proof.
  unfold _label_sentiment.
  destruct (F.ltb F.c0_6 x) eqn:E1, (F.ltb x F.c0_4) eqn:E2;
    try (exfalso; now apply (not_above_and_below x));
    repeat split; intros; try discriminate; try reflexivity;
    try tauto; try (destruct H; discriminate).
Qed.

End Sentiment.

(** ** The ratio calculator *)

Section Ratios.

Import FinancialMetricExtractor.

Lemma positive_not_zero (d : F.float) :
  F.ltb F.zero d = true -> F.is_zero d = false.
Proof. destruct d as [[]|[]| |[] m e]; try reflexivity; discriminate. Qed.

Lemma ratio_block_eq (metrics : gmap string F.float) (name num den : string)
    (pct : bool) (ratios : gmap string F.float) :
  ratio_block metrics name num den pct ratios
  = Ok (match Spec.ratio_of metrics num den pct with
        | Some v => <[name := v]> ratios
        | None => ratios
        end).
Proof.
  unfold ratio_block, Spec.ratio_of, has, getitem.
  destruct (metrics !! num) as [n|]; [|reflexivity].
  destruct (metrics !! den) as [d|]; [|reflexivity].
  simpl. destruct (F.ltb F.zero d) eqn:E; [|reflexivity].
  unfold float_div. rewrite (positive_not_zero d E). reflexivity.
Qed.

Lemma ratio_of_some (metrics : gmap string F.float) (num den : string)
    (pct : bool) :
  is_Some (Spec.ratio_of metrics num den pct)
  <-> exists n d, metrics !! num = Some n /\ metrics !! den = Some d
                  /\ F.ltb F.zero d = true.
Proof.
  unfold Spec.ratio_of. split.
  - destruct (metrics !! num) as [n|]; [|intros [? H]; discriminate].
    destruct (metrics !! den) as [d|]; [|intros [? H]; discriminate].
    destruct (F.ltb F.zero d) eqn:E; [|intros [? H]; discriminate].
    intros _. now exists n, d.
  - intros (n & d & -> & -> & ->). eauto.
Qed.

End Ratios.


(** ** The metric extractor *)

Section Metrics.

Import Re FinancialMetricExtractor.

Lemma extract_one_eq (text : Py.str) (metrics : gmap string F.float)
    (name : string) (pattern : regex) :
  extract_one text metrics (name, pattern)
  = match Spec.metric_value text pattern with
    | Some v => <[name := v]> metrics
    | None => metrics
    end.
Proof.
  unfold extract_one, Spec.metric_value.
  destruct (search IGNORECASE pattern text) as [m|]; [|reflexivity].
  now destruct (F.of_str _).
Qed.

Lemma fold_extract_other (text : Py.str) (l : list (string * regex))
    (acc : gmap string F.float) (name : string) :
  ~ In name (map fst l) ->
  fold_left (extract_one text) l acc !! name = acc !! name.
Proof.
  revert acc. induction l as [|[n pat] l IH]; intros acc Hn; [reflexivity|].
  cbn [fold_left map fst In] in *. rewrite IH by tauto.
  rewrite extract_one_eq.
  destruct (Spec.metric_value text pat); [|reflexivity].
  apply lookup_insert_ne. intros ->. tauto.
Qed.

Lemma fold_extract_lookup (text : Py.str) (l : list (string * regex))
    (acc : gmap string F.float) (name : string) (pattern : regex) :
  List.NoDup (map fst l) -> In (name, pattern) l ->
  fold_left (extract_one text) l acc !! name
  = match Spec.metric_value text pattern with
    | Some v => Some v
    | None => acc !! name
    end.
Proof.
  revert acc. induction l as [|[n pat] l IH]; intros acc Hnd Hin;
    [destruct Hin|].
  cbn [map fst] in Hnd. inversion Hnd as [|? ? Hnot Hnd']; subst.
  destruct Hin as [[= -> ->]|Hin]; cbn [fold_left].
  - rewrite fold_extract_other by exact Hnot.
    rewrite extract_one_eq.
    destruct (Spec.metric_value text pattern); [|reflexivity].
    apply lookup_insert_eq.
  - rewrite (IH _ Hnd' Hin). rewrite extract_one_eq.
    destruct (Spec.metric_value text pattern); [reflexivity|].
    destruct (Spec.metric_value text pat); [|reflexivity].
    apply lookup_insert_ne. intros ->.
    apply Hnot. apply (in_map fst) in Hin. exact Hin.
Qed.

Lemma patterns_nodup : List.NoDup (map fst _load_patterns).
Proof.
  apply (NoDup_ListNoDup (map fst _load_patterns)).
  apply (bool_decide_unpack _). vm_compute. exact I.
Qed.

Lemma extract_metrics_lookup (text : Py.str) (name : string)
    (pattern : regex) :
  In (name, pattern) _load_patterns ->
  extract_metrics text !! name = Spec.metric_value text pattern.
Proof.
  intros Hin. unfold extract_metrics.
  rewrite (fold_extract_lookup text _ _ name pattern patterns_nodup Hin).
  now destruct (Spec.metric_value text pattern).
Qed.

(** The total-assets pattern at the phrase "Total Assets: $5.6 billion",
    whatever follows it. *)
Lemma match_assets_phrase (p : option ascii) (suf : Py.str) :
  match_here IGNORECASE Spec.total_assets_pattern p 0
    (Spec.assets_phrase ++ suf)
  = Some {| prev := Some "n"%char; pos := 26; rest := suf;
            cap := Some (15, 18)%nat |}.
Proof. lazy. reflexivity. Qed.

Lemma search_from_hit f r p i t st :
  match_here f r p i t = Some st ->
  search_from f r p i t
  = Some {| m_start := i; m_end := pos st; m_span1 := cap st |}.
Proof. intros H. destruct t; simpl; now rewrite H. Qed.

Lemma slice_app_mid (pre mid suf : Py.str) (a b : nat) :
  (b <= length mid)%nat ->
  Py.slice (a + length pre) (b + length pre) (pre ++ mid ++ suf)
  = Py.slice a b mid.
Proof.
  intros Hb. unfold Py.slice.
  rewrite skipn_app, skipn_all2 by lia. simpl app.
  replace (a + length pre - length pre)%nat with a by lia.
  replace (b + length pre - (a + length pre))%nat with (b - a)%nat by lia.
  rewrite skipn_app, firstn_app, length_skipn.
  replace (b - a - (length mid - a))%nat with 0%nat by lia.
  simpl. now rewrite app_nil_r.
Qed.

Lemma slice_app_around (pre mid suf : Py.str) (a k : nat) :
  (a <= length pre)%nat ->
  Py.slice a (length mid + length pre + k) (pre ++ mid ++ suf)
  = skipn a pre ++ mid ++ firstn k suf.
Proof.
  intros Ha. unfold Py.slice.
  rewrite skipn_app. replace (a - length pre)%nat with 0%nat by lia.
  simpl skipn.
  rewrite firstn_app, length_skipn.
  rewrite (firstn_all2 (skipn a pre)) by (rewrite length_skipn; lia).
  f_equal.
  change (skipn 0 (mid ++ suf)) with (mid ++ suf).
  rewrite firstn_app.
  rewrite (firstn_all2 mid) by lia. f_equal. f_equal. lia.
Qed.

Lemma no_match_in_spec f r (pre t : Py.str) :
  Spec.no_match_in f r pre t = true ->
  forall j, (j < length pre)%nat ->
    match_here f r (Spec.prev_at None pre j) (0 + j) (skipn j (pre ++ t))
    = None.
Proof.
  unfold Spec.no_match_in. rewrite forallb_forall. intros H j Hj.
  specialize (H j). simpl.
  destruct (match_here f r (Spec.prev_at None pre j) j (skipn j (pre ++ t)));
    [|reflexivity].
  assert (false = true); [|discriminate].
  apply H. apply in_seq. lia.
Qed.

(** The first total-assets match of a text in which the phrase
    "Total Assets: $5.6 billion" is not preceded by another match. *)
Lemma search_assets_phrase (pre suf : Py.str) :
  Spec.no_match_in IGNORECASE Spec.total_assets_pattern pre
    (Spec.assets_phrase ++ suf) = true ->
  search IGNORECASE Spec.total_assets_pattern
    (pre ++ Spec.assets_phrase ++ suf)
  = Some {| m_start := length pre; m_end := 26 + length pre;
            m_span1 := Some (15 + length pre, 18 + length pre)%nat |}.
Proof.
  intros H. unfold search.
  rewrite search_from_skip by (apply no_match_in_spec; exact H).
  erewrite search_from_hit;
    [|rewrite match_here_shift, match_assets_phrase; reflexivity].
  reflexivity.
Qed.

Lemma assets_phrase_value (pre suf : Py.str) :
  Spec.no_match_in IGNORECASE Spec.total_assets_pattern pre
    (Spec.assets_phrase ++ suf) = true ->
  Spec.metric_value (pre ++ Spec.assets_phrase ++ suf)
    Spec.total_assets_pattern
  = Some (F.of_int 5600).
Proof.
  intros H. unfold Spec.metric_value. rewrite (search_assets_phrase _ _ H).
  unfold group1. cbn [m_span1].
  rewrite (slice_app_mid pre Spec.assets_phrase suf 15 18)
    by (vm_compute; lia).
  replace (F.of_str (Py.remove_char "," (Py.slice 15 18 Spec.assets_phrase)))
    with (Some (F.of_ratio 56 10)) by (vm_compute; reflexivity).
  unfold scaled, context. cbn [m_start m_end].
  replace (26 + length pre + 20)%nat
    with (length Spec.assets_phrase + length pre + 20)%nat
    by (vm_compute length; lia).
  rewrite slice_app_around by lia.
  assert (E : Py.contains (Py.s "billion")
                (Py.lower (skipn (length pre - 50) pre ++ Spec.assets_phrase
                           ++ firstn 20 suf)) = true).
  { apply contains_iff.
    exists (Py.lower (skipn (length pre - 50) pre)
            ++ Py.s "total assets: $5.6 "), (Py.lower (firstn 20 suf)).
    rewrite !lower_app, <- !app_assoc. reflexivity. }
  rewrite E. vm_compute. reflexivity.
Qed.

End Metrics.

(** ** Blank texts and the whole pipeline *)

Section Pipeline.

Import Re FinancialMetricExtractor SECFilingParser.

Abbreviation blank t := (Forall (fun x => Py.isspace x = true) t).

Lemma blank_firstn (n : nat) (t : Py.str) : blank t -> blank (firstn n t).
Proof.
  intros H. rewrite <- (firstn_skipn n t) in H.
  apply Forall_app in H. tauto.
Qed.

Lemma fold_extract_none (text : Py.str) (l : list (string * regex))
    (acc : gmap string F.float) :
  Forall (fun e => search IGNORECASE (snd e) text = None) l ->
  fold_left (extract_one text) l acc = acc.
Proof.
  intros H. revert acc. induction H as [|[n pat] l Hs _ IH]; intros acc;
    [reflexivity|].
  cbn [fold_left]. rewrite IH. unfold extract_one. simpl in Hs.
  now rewrite Hs.
Qed.

Lemma metrics_blank (text : Py.str) : blank text -> extract_metrics text = ∅.
Proof.
  intros H. unfold extract_metrics. apply fold_extract_none.
  assert (B : forallb (fun e : string * regex =>
                         Spec.blocked IGNORECASE Py.isspace (snd e))
                      _load_patterns = true) by (vm_compute; reflexivity).
  rewrite forallb_forall in B. apply Forall_forall. intros e He.
  apply (search_blocked IGNORECASE Py.isspace); [|exact H].
  apply B. now apply list_elem_of_In.
Qed.

Lemma sections_blank (text : Py.str) : blank text -> _extract_sections text = ∅.
Proof.
  intros H. unfold _extract_sections.
  rewrite !(search_blocked IGNORECASE_DOTALL Py.isspace)
    by (try exact H; vm_compute; reflexivity).
  reflexivity.
Qed.

Lemma entities_blank (text : Py.str) :
  blank text -> EntityExtractor.extract_entities text = Spec.no_entities.
Proof.
  intros H. unfold EntityExtractor.extract_entities,
    EntityExtractor._load_patterns.
  cbn [fold_left EntityExtractor.extract_one].
  rewrite (findall_blocked EntityExtractor.IGNORECASE Py.isspace
             EntityExtractor.company)
    by (try exact H; vm_compute; reflexivity).
  rewrite (findall_blocked EntityExtractor.IGNORECASE Py.isspace
             EntityExtractor.date)
    by (try exact H; vm_compute; reflexivity).
  rewrite (findall_blocked EntityExtractor.NOFLAGS Py.isspace
             EntityExtractor.money)
    by (try exact H; vm_compute; reflexivity).
  rewrite (findall_blocked EntityExtractor.NOFLAGS Py.isspace
             EntityExtractor.percentage)
    by (try exact H; vm_compute; reflexivity).
  reflexivity.
Qed.

Lemma contains_none_blank (t : Py.str) (l : list Py.str) :
  blank t -> forallb Spec.starts_nonspace l = true ->
  forallb (fun w => negb (Py.contains w (Py.lower t))) l = true.
Proof.
  intros H Hl. rewrite forallb_forall in *. intros w Hw.
  specialize (Hl w Hw). destruct w as [|c w]; [discriminate|].
  simpl in Hl. apply negb_true_iff in Hl. apply negb_true_iff.
  apply (contains_blocked Py.isspace); [exact Hl|].
  now apply lower_forall_space.
Qed.

Lemma no_lexicon_word_blank (t : Py.str) :
  blank t -> Spec.no_lexicon_word t = true.
Proof.
  intros H. unfold Spec.no_lexicon_word, SentimentAnalyzer._load_lexicons.
  cbn [forallb snd].
  rewrite !(contains_none_blank t) by (try exact H; vm_compute; reflexivity).
  reflexivity.
Qed.

Lemma risks_blank (text : Py.str) : blank text -> _extract_risk_factors text = [].
Proof.
  intros H. unfold _extract_risk_factors.
  rewrite (split_blocked NOFLAGS Py.isspace)
    by (try exact H; vm_compute; reflexivity).
  cbn [fold_left]. unfold risk_step.
  assert (E : existsb (fun keyword => Py.contains keyword (Py.lower text))
                risk_keywords = false).
  { pose proof (contains_none_blank text risk_keywords H
                  ltac:(vm_compute; reflexivity)) as Hn.
    destruct (existsb _ risk_keywords) eqn:Ex; [|reflexivity].
    apply existsb_exists in Ex. destruct Ex as (w & Hw & Hc).
    rewrite forallb_forall in Hn. specialize (Hn w Hw).
    rewrite Hc in Hn. discriminate. }
  rewrite E. reflexivity.
Qed.

(** [calculate_ratios] never raises. *)
Lemma calculate_ratios_ok (metrics : gmap string F.float) :
  exists ratios, calculate_ratios metrics = Ok ratios.
Proof.
  unfold calculate_ratios.
  rewrite !ratio_block_eq. cbn [bind]. rewrite !ratio_block_eq. cbn [bind].
  rewrite !ratio_block_eq. cbn [bind]. rewrite !ratio_block_eq. cbn [bind].
  eauto.
Qed.

(** The values stored by [extract_metrics] are parsed numerals, possibly
    scaled: non-negative floats or [+inf]. *)
Lemma metric_value_nonneg (text : Py.str) (pattern : regex) (v : F.float) :
  Spec.metric_value text pattern = Some v -> Spec.nonneg_or_inf v.
Proof.
  unfold Spec.metric_value.
  destruct (search IGNORECASE pattern text) as [m|]; [|discriminate].
  destruct (F.of_str _) as [value|] eqn:E; [|discriminate].
  intros [= <-]. apply of_str_nonneg in E. unfold scaled.
  destruct (Py.contains _ _); [now apply mul_thousand_nonneg|exact E].
Qed.

(** A stored value is finite when its numeral has at most 300
    characters. *)
Lemma metric_value_finite (text : Py.str) (pattern : regex) (m : rmatch)
    (v : F.float) :
  search IGNORECASE pattern text = Some m ->
  (length (Py.remove_char ","%char (group1 text m)) <= 300)%nat ->
  Spec.metric_value text pattern = Some v ->
  F.is_finite v = true.
Proof.
  unfold Spec.metric_value. intros -> Hlen.
  destruct (F.of_str _) as [value|] eqn:E; [|discriminate].
  intros [= <-]. apply (of_str_bound _ _ E) in Hlen. unfold scaled.
  destruct (Py.contains _ _).
  - apply (le_pow2_finite (1000 + 10)).
    apply mul_thousand_le_pow2; [lia|exact Hlen].
  - now apply (le_pow2_finite 1000).
Qed.

Lemma fold_extract_nonneg (text : Py.str) (l : list (string * regex))
    (acc : gmap string F.float) :
  map_Forall (fun _ v => Spec.nonneg_or_inf v) acc ->
  map_Forall (fun _ v => Spec.nonneg_or_inf v)
    (fold_left (extract_one text) l acc).
Proof.
  revert acc. induction l as [|[n pat] l IH]; intros acc H; [exact H|].
  cbn [fold_left]. apply IH. rewrite extract_one_eq.
  destruct (Spec.metric_value text pat) as [v|] eqn:E; [|exact H].
  apply map_Forall_insert_2; [|exact H].
  now apply (metric_value_nonneg text pat).
Qed.

End Pipeline.

(** ** The matcher and the declarative reading of patterns *)

Section Reading.

Import Re.

Implicit Types (f : flags) (r : regex) (st : state).





(** A match consumes a piece of the text ahead and moves the cursor by its
    length. *)
Lemma reads_consumes (test : ascii -> bool) st st' :
  Spec.reads test st st' ->
  exists c, rest st = c :: rest st' /\ pos st' = S (pos st)
            /\ test c = true.
Proof. intros (c & t & Hr & Ht & ->). exists c. auto. Qed.

Lemma iter_consumes (R : state -> state -> Prop) (Q : Py.str -> Prop) :
  (forall st st', R st st' ->
     exists u, rest st = u ++ rest st'
               /\ pos st' = (pos st + length u)%nat) ->
  forall n st st', Spec.iter R n st st' ->
    exists u, rest st = u ++ rest st' /\ pos st' = (pos st + length u)%nat.
Proof.
  intros HR n st st' H. induction H as [st|n st mid st' H1 Hlt _ IH].
  - exists []. simpl. split; [reflexivity|lia].
  - destruct (HR _ _ H1) as (u1 & E1 & P1). destruct IH as (u2 & E2 & P2).
    exists (u1 ++ u2). rewrite <- app_assoc, <- E2, length_app.
    split; [exact E1|lia].
Qed.

Lemma matches_consumes f r :
  forall st st', Spec.matches f r st st' ->
    exists u, rest st = u ++ rest st' /\ pos st' = (pos st + length u)%nat.
Proof.
  induction r as [| c | | | | items | | r1 IH1 r2 IH2 | r1 IH1 r2 IH2
                 | greedy lo hi r1 IH1 | r1 IH1];
    intros st st' H; cbn [Spec.matches] in H;
    try (apply reads_consumes in H; destruct H as (c0 & E & P & _);
         exists [c0]; simpl; split; [exact E|lia]).
  - subst. exists []. simpl. split; [reflexivity|lia].
  - destruct H as [_ ->]. exists []. simpl. split; [reflexivity|lia].
  - destruct H as (mid & H1 & H2).
    destruct (IH1 _ _ H1) as (u1 & E1 & P1).
    destruct (IH2 _ _ H2) as (u2 & E2 & P2).
    exists (u1 ++ u2). rewrite <- app_assoc, <- E2, length_app.
    split; [exact E1|lia].
  - destruct H as [H|H]; eauto.
  - destruct H as (n & Hit & _).
    apply (iter_consumes (Spec.matches f r1) (fun _ => True) IH1 _ _ _ Hit).
  - destruct H as (mid & H1 & ->). simpl. eauto.
Qed.

Lemma anchored_step (text : Py.str) st st' (u : Py.str) :
  Spec.anchored text st -> rest st = u ++ rest st' ->
  pos st' = (pos st + length u)%nat ->
  Spec.anchored text st' /\ Py.slice (pos st) (pos st') text = u.
Proof.
  unfold Spec.anchored, Py.slice. intros [Ha Hle] E P.
  assert (Hs : skipn (pos st') text = rest st').
  { rewrite P, Nat.add_comm, <- skipn_skipn, <- Ha, E.
    rewrite skipn_app, skipn_all, Nat.sub_diag. reflexivity. }
  assert (Hlen : (length (rest st) = length text - pos st)%nat)
    by (rewrite Ha; apply length_skipn).
  rewrite E, length_app in Hlen.
  split; [split; [now symmetry|lia]|].
  rewrite <- Ha, E, P.
  replace (pos st + length u - pos st)%nat with (length u) by lia.
  rewrite firstn_app, firstn_all, Nat.sub_diag. simpl.
  now rewrite app_nil_r.
Qed.

Lemma matches_anchored (text : Py.str) f r st st' :
  Spec.anchored text st -> Spec.matches f r st st' ->
  Spec.anchored text st'.
Proof.
  intros Ha H. destruct (matches_consumes f r _ _ H) as (u & E & P).
  now destruct (anchored_step text st st' u Ha E P).
Qed.

Lemma iter_anchored (text : Py.str) f r n st st' :
  Spec.anchored text st -> Spec.iter (Spec.matches f r) n st st' ->
  Spec.anchored text st'.
Proof.
  intros Ha H. induction H as [st|n st mid st' H1 _ _ IH]; [exact Ha|].
  apply IH. now apply (matches_anchored text f r st).
Qed.











End Reading.

(** * The claims *)

Section Claims.

Import FinancialMetricExtractor SentimentAnalyzer SECFilingParser.

(** C1, as the code has it: [parse_filing] returns a result, without
    raising, for every text, ticker and filing type when the standard output
    can encode its progress lines (the two emoji and the characters of the
    filing type), and raises [UnicodeEncodeError] when it cannot; when it
    returns for an empty or white-space-only text, the metrics, ratios and
    sections of the result are empty, the risk list is empty, each of the
    four entity classes maps to the empty set, and the overall sentiment is
    0.5. *)
Theorem parse_filing_total :
  (forall (out : IO.stream) (now text : Py.str) (ticker : option Py.str)
          (filing_type : Py.str),
     if Spec.can_print out filing_type
     then exists r, parse_filing out now text ticker filing_type = Ok r
     else parse_filing out now text ticker filing_type
          = Raise UnicodeEncodeError)
  /\ (forall (out : IO.stream) (now text : Py.str) (ticker : option Py.str)
             (filing_type : Py.str),
        Spec.can_print out filing_type = true ->
        forallb Py.isspace text = true ->
        exists r,
          parse_filing out now text ticker filing_type = Ok r
          /\ metrics r = ∅ /\ ratios r = ∅ /\ sections r = ∅
          /\ risks r = []
          /\ Forall (fun class => entities r !! class = Some ∅)
                    ["company"; "date"; "money"; "percentage"]%string
          /\ overall_sentiment (sentiment r) = F.half).
Proof.
  split.
  - intros out now text ticker filing_type.
    unfold Spec.can_print, Spec.progress_lines, parse_filing, IO.print.
    cbn [forallb].
    destruct (calculate_ratios_ok (extract_metrics text)) as [rs Hrs].
    destruct (forallb (IO.encodable out) (line_parsing filing_type ++ [10%N]));
      cbn [bind andb]; [|reflexivity].
    destruct (forallb (IO.encodable out) (line_metrics ++ [10%N]));
      cbn [bind andb]; [|reflexivity].
    rewrite Hrs. cbn [bind].
    destruct (forallb (IO.encodable out) (line_sentiment ++ [10%N]));
      cbn [bind andb]; [|reflexivity].
    rewrite analyze_text_eq. cbn [bind].
    destruct (forallb (IO.encodable out) (line_entities ++ [10%N]));
      cbn [bind andb]; [|reflexivity].
    destruct (forallb (IO.encodable out) (line_risks ++ [10%N]));
      cbn [bind andb]; [|reflexivity].
    destruct (forallb (IO.encodable out) (line_complete ++ [10%N]));
      cbn [bind andb]; [eauto|reflexivity].
  - intros out now text ticker filing_type Hp Hb.
    assert (H : Forall (fun x => Py.isspace x = true) text).
    { apply Forall_forall. intros x Hx. rewrite forallb_forall in Hb.
      apply Hb. now apply list_elem_of_In. }
    unfold Spec.can_print, Spec.progress_lines in Hp. cbn [forallb] in Hp.
    rewrite !andb_true_iff in Hp.
    destruct Hp as (P1 & P2 & P3 & P4 & P5 & P6 & _).
    unfold parse_filing, IO.print.
    rewrite P1. cbn [bind]. rewrite P2. cbn [bind].
    rewrite (metrics_blank text H), (sections_blank text H).
    change (calculate_ratios ∅) with (@Ok (gmap string F.float) ∅).
    cbn [bind]. rewrite P3. cbn [bind].
    rewrite analyze_text_eq. cbn [bind]. rewrite P4. cbn [bind].
    rewrite P5. cbn [bind]. rewrite P6. cbn [bind].
    rewrite (entities_blank text H), (risks_blank text H).
    eexists. split; [reflexivity|].
    cbn [metrics ratios sections risks entities sentiment].
    repeat split; try reflexivity.
    + repeat constructor.
    + rewrite lookup_empty. cbn [default].
      pose proof (no_lexicon_word_blank _ (blank_firstn (N.to_nat 5000) text H))
        as Hn.
      destruct (no_lexicon_word_counts _ Hn) as (Hp & Hn' & Hu).
      unfold Spec.sentiment_of, Spec.total_count. rewrite Hp, Hn', Hu.
      reflexivity.
Qed.

Lemma parse_filing_total_witness :
  exists r,
    parse_filing IO.utf8 (Py.s "2024-03-01T09:00:00")
      [" "; "009"; "010"; " "]%char None (Py.s "10-K") = Ok r
    /\ metrics r = ∅ /\ ratios r = ∅ /\ sections r = ∅
    /\ risks r = []
    /\ Forall (fun class => entities r !! class = Some ∅)
              ["company"; "date"; "money"; "percentage"]%string
    /\ overall_sentiment (sentiment r) = F.half.
Proof.
  apply (proj2 parse_filing_total); vm_compute; reflexivity.
Defined.

(** C1, as stated, fails: on a standard output that encodes ASCII only, the
    first progress line, which holds an emoji, makes [parse_filing] raise,
    whatever the text. *)
Lemma parse_filing_raises_counterexample :
  parse_filing IO.ascii_stream (Py.s "2024-03-01T09:00:00") [] None
    (Py.s "10-K")
  = Raise UnicodeEncodeError.
Proof. vm_compute. reflexivity. Qed.

(** C2, as the code has it: a value stored by [extract_metrics] is never
    NaN and never negative; it is finite whenever the matched numeral has
    at most 300 characters once its commas are removed, so that its value,
    also after the scaling by 1000, is within the binary64 range; a longer
    numeral can be stored as [+inf] (see
    [metrics_infinite_counterexample]). *)
Theorem metrics_never_nan (text : Py.str) (name : string) (v : F.float) :
  extract_metrics text !! name = Some v ->
  F.is_nan v = false
  /\ Spec.nonneg_or_inf v
  /\ (forall (pattern : Re.regex) (m : Re.rmatch),
        In (name, pattern) _load_patterns ->
        Re.search IGNORECASE pattern text = Some m ->
        (length (Py.remove_char ","%char (Re.group1 text m)) <= 300)%nat ->
        F.is_finite v = true).
Proof.
  intros H.
  assert (Hv : Spec.nonneg_or_inf v).
  { apply (fold_extract_nonneg text _load_patterns ∅
             ltac:(apply map_Forall_empty) name v H). }
  split; [now destruct v|]. split; [exact Hv|].
  intros pattern m Hin Hs Hlen.
  rewrite (extract_metrics_lookup text name pattern Hin) in H.
  exact (metric_value_finite text pattern m v Hs Hlen H).
Qed.

Lemma metrics_never_nan_witness :
  F.is_nan (F.of_int 2500) = false
  /\ Spec.nonneg_or_inf (F.of_int 2500)
  /\ F.is_finite (F.of_int 2500) = true.
Proof.
  destruct (metrics_never_nan (Py.s "Revenue: $2,500 million") "revenue"
              (F.of_int 2500) ltac:(vm_compute; reflexivity))
    as (H1 & H2 & H3).
  split; [exact H1|]. split; [exact H2|].
  apply (H3 (snd (nth 0 _load_patterns (""%string, Re.Eps)))
            {| Re.m_start := 0; Re.m_end := 23;
               Re.m_span1 := Some (10, 15)%nat |}).
  - left. reflexivity.
  - vm_compute. reflexivity.
  - vm_compute. lia.
Defined.

(** C2, as stated, fails: a numeral of 310 digits is stored as [+inf]. *)
Lemma metrics_infinite_counterexample :
  exists v, extract_metrics Spec.huge_revenue !! "revenue"%string = Some v
            /\ F.is_finite v = false.
Proof.
  exists (S754_infinity false). split; vm_compute; reflexivity.
Qed.

(** C3, as the code has it: for every metric whose pattern matches and
    whose numeral parses, the stored value is the parsed value times 1000
    exactly when the lower-cased window from 50 characters before the match
    to 20 characters after it contains "billion", and the parsed value
    otherwise; and a text in which no total-assets match starts before the
    phrase "Total Assets: $5.6 billion" maps [total_assets] to 5600.0. *)
Theorem scale_normalization :
  (forall (text : Py.str) (name : string) (pattern : Re.regex)
          (m : Re.rmatch) (value : F.float),
     In (name, pattern) _load_patterns ->
     Re.search IGNORECASE pattern text = Some m ->
     F.of_str (Py.remove_char ","%char (Re.group1 text m)) = Some value ->
     extract_metrics text !! name
     = Some (if Py.contains (Py.s "billion")
                  (Py.lower (Py.slice (Re.m_start m - 50) (Re.m_end m + 20)
                                      text))
             then F.mul value F.thousand
             else value))
  /\ (forall pre suf : Py.str,
        Spec.no_match_in IGNORECASE Spec.total_assets_pattern pre
          (Spec.assets_phrase ++ suf) = true ->
        extract_metrics (pre ++ Spec.assets_phrase ++ suf)
          !! "total_assets"%string
        = Some (F.of_int 5600)).
Proof.
  split.
  - intros text name pattern m value Hin Hs Hv.
    rewrite (extract_metrics_lookup text name pattern Hin).
    unfold Spec.metric_value. rewrite Hs, Hv. reflexivity.
  - intros pre suf H.
    rewrite (extract_metrics_lookup _ "total_assets"
               Spec.total_assets_pattern).
    + now apply assets_phrase_value.
    + unfold _load_patterns. do 5 right. left. reflexivity.
Qed.

Lemma scale_normalization_witness :
  extract_metrics (Py.s "Net income was $2.5 billion") !! "net_income"%string
  = Some (F.of_int 2500)
  /\ extract_metrics
       (Py.s "Balance sheet. " ++ Spec.assets_phrase ++ Py.s " at year end")
       !! "total_assets"%string
     = Some (F.of_int 5600).
Proof.
  split.
  - assert (Hin : In ("net_income"%string,
                      (Re.word "net" ++ Re.plus Re.Space ++ Re.word "income"
                       ++ amount ++ scale)%re) _load_patterns)
      by (right; left; reflexivity).
    rewrite (proj1 scale_normalization (Py.s "Net income was $2.5 billion")
               "net_income" _
               {| Re.m_start := 0; Re.m_end := 27;
                  Re.m_span1 := Some (16, 19)%nat |}
               (F.of_ratio 25 10) Hin);
      vm_compute; reflexivity.
  - apply (proj2 scale_normalization). vm_compute. reflexivity.
Defined.

(** C3, as stated, fails: a text that contains "Total Assets: $5.6 billion"
    after an earlier total-assets figure maps [total_assets] to that earlier
    figure. *)
Lemma scale_normalization_counterexample :
  Py.contains Spec.assets_phrase Spec.two_assets_text = true
  /\ extract_metrics Spec.two_assets_text !! "total_assets"%string
     = Some (F.of_int 7)
  /\ F.eqb (F.of_int 7) (F.of_int 5600) = false.
Proof. repeat split; vm_compute; reflexivity. Qed.

(** C8 fails on the code: [re.IGNORECASE] applies to the whole company
    pattern, so a word sequence without any capital letter is collected. *)
Theorem company_not_capitalized :
  Re.findall EntityExtractor.IGNORECASE EntityExtractor.company
    (Py.s "apple inc.") = [Py.s "apple inc."]
  /\ EntityExtractor.extract_entities (Py.s "apple inc.")
       !! "company"%string = Some {[ Py.s "apple inc." ]}
  /\ Py.is_ascii_upper "a" = false.
Proof. repeat split; vm_compute; reflexivity. Qed.

(** C4: [calculate_ratios] never raises.  Each of its four ratios is
    emitted exactly when both of its input metrics are present and the
    divisor is greater than zero, and is then the quotient (times 100 for
    the two percentages).  For the mapping {net_income: 450.0, revenue: 0.0}
    nothing is emitted, [profit_margin] in particular, and no division by
    zero occurs. *)
Theorem calculate_ratios_guard :
  (forall metrics : gmap string F.float,
     exists ratios : gmap string F.float,
       calculate_ratios metrics = Ok ratios
       /\ Forall (fun '(name, num, den, pct) =>
                    ratios !! name = Spec.ratio_of metrics num den pct
                    /\ (is_Some (ratios !! name)
                        <-> exists n d, metrics !! num = Some n
                                        /\ metrics !! den = Some d
                                        /\ F.ltb F.zero d = true))
                 Spec.ratio_table)
  /\ calculate_ratios
       (<["revenue"%string := F.zero]>
          {["net_income"%string := F.of_int 450]}) = Ok ∅.
Proof.
  split; [|reflexivity].
  intros metrics. unfold calculate_ratios.
  rewrite !ratio_block_eq. cbn [bind]. rewrite !ratio_block_eq. cbn [bind].
  rewrite !ratio_block_eq. cbn [bind]. rewrite !ratio_block_eq. cbn [bind].
  eexists. split; [reflexivity|].
  unfold Spec.ratio_table.
  repeat (apply Forall_cons; split;
          [match goal with |- ?A /\ _ =>
             assert (E : A);
             [|split; [exact E|rewrite E; apply ratio_of_some]]
           end|]); try apply Forall_nil;
    destruct (Spec.ratio_of metrics "net_income" "revenue" true);
    destruct (Spec.ratio_of metrics "net_income" "total_assets" true);
    destruct (Spec.ratio_of metrics "total_liabilities"
                "stockholders_equity" false);
    destruct (Spec.ratio_of metrics "cash_and_equivalents"
                "total_liabilities" false);
    by simplify_map_eq.
Qed.

(** C7: the risk-sentence selector cuts the text at the runs of '.', '!'
    and '?', keeps, in document order, the sentences whose lower-cased form
    contains one of the five keywords and whose stripped length exceeds 50,
    and returns the first ten of them (stripped); so it returns at most ten
    sentences, and exactly the first ten when twenty qualify. *)
Theorem risk_selector_spec (text : Py.str) :
  let sentences := Spec.split_runs Spec.is_sentence_end false [] text in
  let kept := List.filter Spec.qualifies sentences in
  Re.split NOFLAGS sentence_end text = sentences
  /\ _extract_risk_factors text = map Py.strip (firstn 10 kept)
  /\ (length (_extract_risk_factors text) <= 10)%nat
  /\ (length kept = 20%nat ->
      length (_extract_risk_factors text) = 10%nat).
Proof.
  cbv zeta.
  assert (E : _extract_risk_factors text
              = map Py.strip
                  (firstn 10 (List.filter Spec.qualifies
                     (Spec.split_runs Spec.is_sentence_end false [] text)))).
  { unfold _extract_risk_factors.
    rewrite fold_risk_step, split_sentences. simpl app.
    now rewrite firstn_map. }
  split; [apply split_sentences|]. split; [exact E|].
  rewrite E, length_map, length_firstn. split; [lia|].
  intros ->. reflexivity.
Qed.

Lemma risk_selector_witness :
  length (_extract_risk_factors Spec.twenty_risks) = 10%nat.
Proof.
  apply (proj2 (proj2 (proj2 (risk_selector_spec Spec.twenty_risks)))).
  vm_compute. reflexivity.
Defined.

(** C10: a string returned by the risk-sentence selector contains none of
    '.', '!' and '?', and begins and ends with a character that is not
    white space. *)
Theorem risk_sentences_clean (text s : Py.str) :
  In s (_extract_risk_factors text) ->
  Forall (fun c => Spec.is_sentence_end c = false) s
  /\ exists a b, head s = Some a /\ last s = Some b
                 /\ Py.isspace a = false /\ Py.isspace b = false.
Proof.
  destruct (risk_selector_spec text) as (_ & E & _). rewrite E.
  intros Hin. apply in_map_iff in Hin. destruct Hin as (x & <- & Hx).
  apply in_firstn in Hx. apply filter_In in Hx. destruct Hx as [Hx Hq].
  split.
  - apply strip_forall.
    pose proof (split_runs_forall Spec.is_sentence_end
                  (fun c => Spec.is_sentence_end c = false) text
                  ltac:(auto) false [] ltac:(constructor)) as Hall.
    rewrite Forall_forall in Hall. apply Hall. now apply list_elem_of_In.
  - unfold Spec.qualifies in Hq. apply andb_prop in Hq.
    destruct Hq as [_ Hlen]. apply Nat.ltb_lt in Hlen.
    destruct (strip_ends x) as [E0|H]; [|exact H].
    rewrite E0 in Hlen. simpl in Hlen. lia.
Qed.

Lemma risk_sentences_clean_witness :
  Forall (fun c => Spec.is_sentence_end c = false) Spec.risk_sentence
  /\ exists a b, head Spec.risk_sentence = Some a
                 /\ last Spec.risk_sentence = Some b
                 /\ Py.isspace a = false /\ Py.isspace b = false.
Proof.
  apply (risk_sentences_clean Spec.twenty_risks Spec.risk_sentence).
  vm_compute. left. reflexivity.
Defined.

(** C9: every occurrence of "uncertainty" in the lower-cased text is
    counted by [str.count] both for the word "uncertainty" of the negative
    lexicon and for the word "uncertain" of the uncertainty lexicon; so with
    [n] occurrences both counts are at least [n] and the total, the
    denominator of the scores, is at least [2 * n]. *)
Theorem uncertainty_counted_twice (text : Py.str) :
  let n := Spec.occurrences (Py.s "uncertainty") (Py.lower text) in
  Py.count (Py.lower text) (Py.s "uncertainty") = n
  /\ (n <= Py.count (Py.lower text) (Py.s "uncertain"))%nat
  /\ exists r cn cu,
       analyze_text text = Ok r
       /\ counts r !! "negative"%string = Some cn
       /\ counts r !! "uncertainty"%string = Some cu
       /\ (n <= cn)%nat /\ (n <= cu)%nat
       /\ (2 * n <= total_of (counts r))%nat.
Proof.
  cbv zeta. set (t := Py.lower text).
  assert (E1 : Py.count t (Py.s "uncertainty")
               = Spec.occurrences (Py.s "uncertainty") t).
  { apply count_occurrences. vm_compute. intuition discriminate. }
  assert (E2 : (Spec.occurrences (Py.s "uncertainty") t
                <= Py.count t (Py.s "uncertain"))%nat).
  { change (Py.s "uncertain") with ("u"%char :: Py.s "ncertain").
    rewrite count_occurrences by (vm_compute; intuition discriminate).
    apply (occurrences_prefix (Py.s "uncertain") (Py.s "ty")). }
  split; [exact E1|]. split; [exact E2|].
  assert (Hn : (Py.count t (Py.s "uncertainty")
                <= Spec.category_count "negative" text)%nat).
  { apply lexicon_count_member. vm_compute. tauto. }
  assert (Hu : (Py.count t (Py.s "uncertain")
                <= Spec.category_count "uncertainty" text)%nat).
  { apply lexicon_count_member. vm_compute. tauto. }
  exists (Spec.sentiment_of text), (Spec.category_count "negative" text),
    (Spec.category_count "uncertainty" text).
  split; [apply analyze_text_eq|].
  cbn [Spec.sentiment_of counts]. rewrite total_of_counts.
  destruct (counts_of_lookup (Spec.category_count "positive" text)
              (Spec.category_count "negative" text)
              (Spec.category_count "uncertainty" text)) as (_ & -> & ->).
  repeat split; lia.
Qed.

(** C6: when no word of the three lexicons occurs in the lower-cased text,
    [analyze_text] returns the three scores 0.0, overall sentiment 0.5 and
    the label "Neutral"; and for every text the label is "Positive" exactly
    when the overall sentiment is above 0.6, "Negative" exactly when it is
    below 0.4, and "Neutral" otherwise. *)
Theorem sentiment_neutral_and_label :
  (forall text : Py.str,
     Spec.no_lexicon_word text = true ->
     exists r,
       analyze_text text = Ok r
       /\ Forall (fun category => scores r !! category = Some F.zero)
                 ["positive"; "negative"; "uncertainty"]%string
       /\ overall_sentiment r = F.half
       /\ sentiment_label r = "Neutral"%string)
  /\ (forall text : Py.str,
        exists r,
          analyze_text text = Ok r
          /\ (sentiment_label r = "Positive"%string
              <-> F.ltb F.c0_6 (overall_sentiment r) = true)
          /\ (sentiment_label r = "Negative"%string
              <-> F.ltb (overall_sentiment r) F.c0_4 = true)
          /\ (sentiment_label r = "Neutral"%string
              <-> F.ltb F.c0_6 (overall_sentiment r) = false
                  /\ F.ltb (overall_sentiment r) F.c0_4 = false)).
Proof.
  split.
  - intros text H. exists (Spec.sentiment_of text).
    split; [apply analyze_text_eq|].
    destruct (no_lexicon_word_counts text H) as (Hp & Hn & Hu).
    unfold Spec.sentiment_of, Spec.total_count. rewrite Hp, Hn, Hu.
    cbn [Nat.add Nat.eqb scores overall_sentiment sentiment_label].
    repeat split. repeat constructor.
  - intros text. exists (Spec.sentiment_of text).
    split; [apply analyze_text_eq|].
    apply (label_cases (overall_sentiment (Spec.sentiment_of text))).
Qed.

Lemma sentiment_neutral_witness :
  exists r,
    analyze_text (Py.s "Hello world") = Ok r
    /\ Forall (fun category => scores r !! category = Some F.zero)
              ["positive"; "negative"; "uncertainty"]%string
    /\ overall_sentiment r = F.half
    /\ sentiment_label r = "Neutral"%string.
Proof.
  apply (proj1 sentiment_neutral_and_label (Py.s "Hello world")).
  vm_compute. reflexivity.
Defined.

(** C5, as the code has it: every score lies in [[0, 1]] and so does the
    overall sentiment; each score is [0.0] when the total count is zero and
    otherwise the correctly rounded quotient of its count by the total, the
    three counts adding up to the total.  (The quotients add up to 1; their
    binary64 roundings need not, see [sentiment_sum_counterexample].) *)
Theorem sentiment_scores_bounded (text : Py.str) :
  exists r cp cn cu,
    analyze_text text = Ok r
    /\ counts r = Spec.counts_of cp cn cu
    /\ total_of (counts r) = (cp + cn + cu)%nat
    /\ scores r
       = (if Nat.eqb (cp + cn + cu) 0
          then (fun _ => F.zero) <$> counts r
          else (fun c => Spec.score c (cp + cn + cu)) <$> counts r)
    /\ map_Forall (fun _ s => Spec.in_unit s) (scores r)
    /\ Spec.in_unit (overall_sentiment r).
Proof.
  exists (Spec.sentiment_of text), (Spec.category_count "positive" text),
    (Spec.category_count "negative" text),
    (Spec.category_count "uncertainty" text).
  split; [apply analyze_text_eq|].
  unfold Spec.sentiment_of, Spec.total_count.
  cbn [counts scores overall_sentiment].
  set (cp := Spec.category_count "positive" text).
  set (cn := Spec.category_count "negative" text).
  set (cu := Spec.category_count "uncertainty" text).
  split; [reflexivity|]. split; [apply total_of_counts|].
  split; [reflexivity|].
  destruct (Nat.eqb (cp + cn + cu) 0) eqn:E.
  - split; [|split; [lia|vm_compute; discriminate]].
    intros k s. rewrite lookup_fmap.
    destruct (Spec.counts_of cp cn cu !! k); simpl; [|discriminate].
    intros [= <-]. exact I.
  - apply Nat.eqb_neq in E. split.
    + intros k s. rewrite lookup_fmap.
      destruct (Spec.counts_of cp cn cu !! k) as [c|] eqn:Hk; simpl;
        [|discriminate].
      intros [= <-]. apply counts_of_inv in Hk.
      apply of_ratio_unit; lia.
    + apply overall_unit; apply of_ratio_unit; lia.
Qed.

(** C5, as stated, fails: for a text with 8 positive, 9 negative and 18
    uncertainty matches the three scores do not add up to [1.0], in whatever
    order they are added. *)
Lemma sentiment_sum_counterexample :
  exists r sp sn su,
    analyze_text Spec.skewed_text = Ok r
    /\ (0 < total_of (counts r))%nat
    /\ scores r !! "positive"%string = Some sp
    /\ scores r !! "negative"%string = Some sn
    /\ scores r !! "uncertainty"%string = Some su
    /\ F.eqb (F.add (F.add sp sn) su) F.one = false
    /\ F.eqb (F.add (F.add sp su) sn) F.one = false
    /\ F.eqb (F.add (F.add sn su) sp) F.one = false.
Proof.
  exists (Spec.sentiment_of Spec.skewed_text), (Spec.score 8 35),
    (Spec.score 9 35), (Spec.score 18 35).
  split; [apply analyze_text_eq|].
  repeat split; try (vm_compute; reflexivity).
  vm_compute. lia.
Qed.

End Claims.

(** * Further properties of the code *)

Section Further.

Import FinancialMetricExtractor SentimentAnalyzer SECFilingParser.












































End Further.
